(** * Delivery optimizer: a shallow embedding of [config.py], [main.py],
      [optimizer.py] and [data_utils.py]

    Numbers.  The Python code computes on [int] and on binary64 [float]
    (numpy [float64]) values.  Finite values are embedded as exact rationals
    ([Q]); the two infinities and NaN are kept as separate values because the
    matrix provider writes [float('inf')] into the matrices.  Rounding of
    binary64 arithmetic is outside this model.  The geodesic fallback of
    [data_utils.py] needs [sin], [cos], [asin] and [sqrt] and is embedded over
    the real numbers. *)

From Stdlib Require Import ZArith QArith Qabs Qround List Bool String Lia Arith.
From Stdlib Require Import Reals Lra.
From Stdlib Require Import Sorted DecimalString.
Import ListNotations.

(** ** Python values and exceptions *)

Module Py.

Inductive exn : Type :=
| OverflowError
| ValueError
| ZeroDivisionError
| IndexError
| AttributeError
| MalformedInput.

Inductive result (A : Type) : Type :=
| Ok (a : A)
| Raise (e : exn).
Arguments Ok {A} a.
Arguments Raise {A} e.

Definition bind {A B : Type} (m : result A) (k : A -> result B) : result B :=
  match m with
  | Ok a => k a
  | Raise e => Raise e
  end.

Notation "x <- m ;; k" := (bind m (fun x => k))
  (at level 61, m at next level, right associativity).

(** A Python [float]: a finite value, [inf], [-inf] or [nan]. *)
Inductive float : Type :=
| Fin (q : Q)
| PInf
| NInf
| NaN.

Local Open Scope Q_scope.

Definition Qsgn (q : Q) : Z := Z.sgn (Qnum q).

Definition fneg (x : float) : float :=
  match x with
  | Fin q => Fin (- q)
  | PInf => NInf
  | NInf => PInf
  | NaN => NaN
  end.

Definition fadd (x y : float) : float :=
  match x, y with
  | NaN, _ | _, NaN => NaN
  | Fin a, Fin b => Fin (a + b)
  | PInf, NInf | NInf, PInf => NaN
  | PInf, _ | _, PInf => PInf
  | NInf, _ | _, NInf => NInf
  end.

Definition fsub (x y : float) : float := fadd x (fneg y).

(** An infinity of the sign [s] ([nan] when [s] is zero). *)
Definition inf_of_sign (s : Z) : float :=
  match s with
  | Z0 => NaN
  | Zpos _ => PInf
  | Zneg _ => NInf
  end.

Definition fsign (x : float) : Z :=
  match x with
  | Fin q => Qsgn q
  | PInf => 1%Z
  | NInf => (-1)%Z
  | NaN => 0%Z
  end.

Definition fmul (x y : float) : float :=
  match x, y with
  | NaN, _ | _, NaN => NaN
  | Fin a, Fin b => Fin (a * b)
  | _, _ => inf_of_sign (fsign x * fsign y)
  end.

Definition fabs (x : float) : float :=
  match x with
  | Fin q => Fin (Qabs q)
  | PInf | NInf => PInf
  | NaN => NaN
  end.

(** [x == 0] *)
Definition feq_zero (x : float) : bool :=
  match x with
  | Fin q => Qeq_bool q 0
  | _ => false
  end.

(** [x / y] on Python floats: a zero divisor raises.  (A numpy [float64]
    answers [inf] or [nan] with a warning instead; the program divides only
    behind a test for zero.) *)
Definition fdiv (x y : float) : result float :=
  if feq_zero y then Raise ZeroDivisionError
  else Ok match x, y with
          | NaN, _ | _, NaN => NaN
          | Fin a, Fin b => Fin (a / b)
          | Fin _, _ => Fin 0
          | _, Fin b => inf_of_sign (fsign x * Qsgn b)
          | _, _ => NaN
          end.

(** [x > y]; every comparison with [nan] is false. *)
Definition fgt (x y : float) : bool :=
  match x, y with
  | NaN, _ | _, NaN => false
  | Fin a, Fin b => negb (Qle_bool a b)
  | PInf, PInf => false
  | PInf, _ => true
  | _, NInf => match x with NInf => false | _ => true end
  | _, _ => false
  end.

(** Truncation toward zero, as [int()] does on a finite float. *)
Definition Qtruncate (q : Q) : Z := Z.quot (Qnum q) (Zpos (Qden q)).

(** [int(x)]: [inf] raises [OverflowError], [nan] raises [ValueError]. *)
Definition to_int (x : float) : result Z :=
  match x with
  | Fin q => Ok (Qtruncate q)
  | PInf | NInf => Raise OverflowError
  | NaN => Raise ValueError
  end.

Definition of_int (z : Z) : float := Fin (inject_Z z).

(** [m[i][j]] on a matrix stored by rows; a position outside it raises. *)
Definition getitem {A : Type} (l : list A) (i : nat) : result A :=
  match nth_error l i with
  | Some a => Ok a
  | None => Raise IndexError
  end.

Definition getitem2 {A : Type} (m : list (list A)) (i j : nat) : result A :=
  row <- getitem m i ;; getitem row j.

End Py.

(** ** config.py *)

Module Config.
Local Open Scope Q_scope.
Definition WEIGHT_TIME : Q := 1.
Definition WEIGHT_FUEL : Q := 1 # 2.
Definition WEIGHT_PRIORITY : Q := 100.
Definition VEHICLE_CAPACITY : Z := 40.
Definition NUM_VEHICLES : nat := 1.
Definition DEPOT_INDEX : nat := 0.
Definition REOPTIMIZATION_VARIANCE_THRESHOLD : Q := 15 # 100.
Definition FALLBACK_SPEED_KMH : R := 30%R.
End Config.

(** ** main.py *)

Module Main.
Import Py.
Local Open Scope Q_scope.

Definition check_reoptimization (current_eta predicted_eta : float) : result bool :=
  if feq_zero predicted_eta then Ok false
  else
    variance <- fdiv (fabs (fsub current_eta predicted_eta)) predicted_eta ;;
    Ok (fgt variance (Fin Config.REOPTIMIZATION_VARIANCE_THRESHOLD)).

End Main.

(** ** The node table *)

Module Data.

(** A row of the node table.  [lat] and [lon] are read by [data_utils.py],
    [demand] and [priority] by [optimizer.py].  [window] stands for the
    optional time-window columns of the specification's data model; a pandas
    table may carry such extra columns, and no function of the program reads
    them. *)
Record Row (C : Type) : Type := mkRow {
  id : string;
  lat : C;
  lon : C;
  demand : Z;
  priority : Z;
  window : option (Z * Z)
}.
Arguments mkRow {C} _ _ _ _ _ _.
Arguments id {C} _.
Arguments lat {C} _.
Arguments lon {C} _.
Arguments demand {C} _.
Arguments priority {C} _.
Arguments window {C} _.

Definition DataFrame (C : Type) : Type := list (Row C).

(** [df.iterrows()] on a table with the default index [0 .. len(df)-1]. *)
Definition iterrows {C : Type} (df : DataFrame C) : list (nat * Row C) :=
  combine (seq 0 (List.length df)) df.

End Data.

(** ** The routing library driven by optimizer.py

    The index manager, the routing model and the assignment are objects of
    the OR-Tools library.  Their queries are given here for the way the
    program creates them: one depot shared by every vehicle. *)

Module Routing.
Import Py.

Record Manager : Type := mkManager {
  num_nodes : nat;
  num_vehicles : nat;
  depot : nat
}.

(** Number of indices that have a successor variable. *)
Definition Size (m : Manager) : nat := num_nodes m + num_vehicles m - 1.

Definition IsEnd (m : Manager) (index : nat) : bool := Size m <=? index.

Definition IsStart (m : Manager) (index : nat) : bool :=
  (index <? Size m) && ((index =? depot m) || (num_nodes m <=? index)).

Definition Start (m : Manager) (vehicle : nat) : nat :=
  match vehicle with
  | O => depot m
  | S v => num_nodes m + v
  end.

Definition End (m : Manager) (vehicle : nat) : nat := Size m + vehicle.

Definition IndexToNode (m : Manager) (index : nat) : nat :=
  if index <? num_nodes m then index else depot m.

Definition NodeToIndex (m : Manager) (node : nat) : nat := node.

(** The arguments of [AddDimension] / [AddDimensionWithVehicleCapacity]. *)
Record Dimension : Type := mkDimension {
  transit : nat -> nat -> result Z;
  slack_max : Z;
  vehicle_capacities : list Z;
  fix_start_cumul_to_zero : bool;
  dim_name : string
}.

Inductive FirstSolutionStrategy : Type :=
| AUTOMATIC
| PATH_CHEAPEST_ARC.

Record SearchParameters : Type := mkSearchParameters {
  first_solution_strategy : FirstSolutionStrategy;
  time_limit_seconds : Z
}.

Record RoutingModel : Type := mkRoutingModel {
  model_manager : Manager;
  arc_cost_evaluator : nat -> nat -> result Z;
  dimensions : list Dimension;
  (** [GetDimensionOrDie(name).CumulVar(index).SetRange(lo, hi)] calls *)
  cumul_ranges : list (string * nat * (Z * Z));
  (** [AddDisjunction(indices, penalty)] calls *)
  disjunctions : list (list nat * Z)
}.

(** The penalties of the disjunctions that hold [index]: the costs at which
    the node may be left out of every route. *)
Definition penalties_of (ds : list (list nat * Z)) (index : nat) : list Z :=
  map snd (filter (fun d => existsb (Nat.eqb index) (fst d)) ds).

(** What the program reads of a returned assignment. *)
Record Assignment : Type := mkAssignment {
  NextVar : nat -> nat;
  ObjectiveValue : Z
}.

(** *** What the library guarantees of an assignment it returns

    The successors of the indices are pairwise different, lie among the
    indices and are never a start; an index left out of every route is its
    own successor; every other index lies on a path that leads to a route
    end (there is no cycle). *)

Fixpoint all_different (l : list nat) : bool :=
  match l with
  | [] => true
  | x :: r => negb (existsb (Nat.eqb x) r) && all_different r
  end.

Fixpoint reaches_end (m : Manager) (next : nat -> nat) (fuel index : nat) : bool :=
  IsEnd m index ||
  match fuel with
  | O => false
  | S fuel' => reaches_end m next fuel' (next index)
  end.

Definition assignment_ok (m : Manager) (a : Assignment) : bool :=
  let indices := seq 0 (Size m) in
  forallb (fun i => (NextVar a i <? Size m + num_vehicles m)
                    && negb (IsStart m (NextVar a i))) indices
  && all_different (map (NextVar a) indices)
  && forallb (fun i => (NextVar a i =? i)
                       || reaches_end m (NextVar a) (Size m) i) indices.

(** *** What a dimension admits

    Along a route, [cumul(next) = cumul(i) + transit(i, next) + slack(i)] with
    [0 <= slack(i) <= slack_max] and [0 <= cumul(i) <= capacity]; the start's
    cumul is 0 when [fix_start_cumul_to_zero] is set. *)

Local Open Scope Z_scope.

Definition cumul_in (lo hi : Z) (c : Z) : bool := (lo <=? c) && (c <=? hi).

Fixpoint steps_admit (d : Dimension) (capacity : Z) (cumul : nat -> Z)
         (path : list nat) : bool :=
  match path with
  | [] => true
  | i :: rest =>
      cumul_in 0 capacity (cumul i) &&
      match rest with
      | [] => true
      | j :: _ =>
          match transit d i j with
          | Ok t => cumul_in 0 (slack_max d) (cumul j - cumul i - t)
                    && steps_admit d capacity cumul rest
          | Raise _ => false
          end
      end
  end.

Definition dimension_admits (d : Dimension) (vehicle : nat) (cumul : nat -> Z)
           (path : list nat) : bool :=
  match nth_error (vehicle_capacities d) vehicle, path with
  | Some capacity, start :: _ =>
      (if fix_start_cumul_to_zero d then cumul start =? 0 else true)
      && steps_admit d capacity cumul path
  | _, _ => false
  end.

(** The [SetRange] calls made on the cumul variables of dimension [name]. *)
Definition ranges_admit (rm : RoutingModel) (name : string) (cumul : nat -> Z)
           (path : list nat) : bool :=
  forallb (fun r => let '(n, index, (lo, hi)) := r in
                    negb (String.eqb n name)
                    || negb (existsb (Nat.eqb index) path)
                    || cumul_in lo hi (cumul index))
          (cumul_ranges rm).

End Routing.

(** ** optimizer.py *)

Module Optimizer.
Import Py Data Routing.

Definition Matrix : Type := list (list float).

Record Route : Type := mkRoute {
  vehicle : nat;
  sequence : list nat;
  distance : float;
  time : float
}.

Section RouteOptimizer.
Context {C : Type}.

Record RouteOptimizer : Type := mkRouteOptimizer {
  df : DataFrame C;
  dist_matrix : Matrix;
  time_matrix : Matrix;
  manager : option Manager;
  routing : option RoutingModel;
  solution : option Assignment
}.

(** [RouteOptimizer.__init__]: the three arguments are stored as they come. *)
Definition __init__ (df_data : DataFrame C) (dist_matrix time_matrix : Matrix)
  : result RouteOptimizer :=
  Ok (mkRouteOptimizer df_data dist_matrix time_matrix None None None).

(** *** The callbacks registered by [solve] *)

Definition time_callback (self : RouteOptimizer) (mgr : Manager)
           (from_index to_index : nat) : result Z :=
  let from_node := IndexToNode mgr from_index in
  let to_node := IndexToNode mgr to_index in
  v <- getitem2 (time_matrix self) from_node to_node ;;
  to_int v.

Definition cost_callback (self : RouteOptimizer) (mgr : Manager)
           (from_index to_index : nat) : result Z :=
  let from_node := IndexToNode mgr from_index in
  let to_node := IndexToNode mgr to_index in
  time_val <- getitem2 (time_matrix self) from_node to_node ;;
  dist_val <- getitem2 (dist_matrix self) from_node to_node ;;
  let cost := fadd (fmul time_val (Fin Config.WEIGHT_TIME))
                   (fmul dist_val (Fin Config.WEIGHT_FUEL)) in
  to_int cost.

Definition demand_callback (self : RouteOptimizer) (mgr : Manager)
           (from_index : nat) : result Z :=
  let from_node := IndexToNode mgr from_index in
  row <- getitem (df self) from_node ;;
  Ok (demand row).

(** *** The dimensions *)

Definition capacity_dimension (self : RouteOptimizer) (mgr : Manager) : Dimension :=
  mkDimension (fun from_index _ => demand_callback self mgr from_index)
              0
              (repeat Config.VEHICLE_CAPACITY Config.NUM_VEHICLES)
              true
              "Capacity".

Definition time_dimension (self : RouteOptimizer) (mgr : Manager) : Dimension :=
  mkDimension (time_callback self mgr)
              (30 * 60)
              (repeat (24 * 60 * 60)%Z Config.NUM_VEHICLES)
              false
              "Time".

(** *** The time windows *)

Definition time_window_of (i : nat) : Z * Z :=
  if i mod 2 =? 0 then (1800, 14400)%Z else (3600, 21600)%Z.

Definition time_windows (self : RouteOptimizer) (mgr : Manager)
  : list (string * nat * (Z * Z)) :=
  flat_map (fun ir : nat * Row C =>
              let (i, row) := ir in
              if i =? 0 then []
              else [("Time"%string, NodeToIndex mgr i, time_window_of i)])
           (iterrows (df self)).

(** *** The drop penalties *)

Definition penalty_base : Q := 100000.

(** [int(config.WEIGHT_PRIORITY * p_val * penalty_base)]; the priority of a
    row is an integer, so the product is finite and [int] does not raise. *)
Definition penalty_of (p_val : Z) : Z :=
  Qtruncate (Config.WEIGHT_PRIORITY * inject_Z p_val * penalty_base).

Definition drop_disjunctions (self : RouteOptimizer) (mgr : Manager)
  : list (list nat * Z) :=
  flat_map (fun ir : nat * Row C =>
              let (i, row) := ir in
              if i =? 0 then []
              else [([NodeToIndex mgr i], penalty_of (priority row))])
           (iterrows (df self)).

(** *** [solve] *)

Definition build_model (self : RouteOptimizer) : Manager * RoutingModel :=
  let num_locations := List.length (df self) in
  let mgr := mkManager num_locations Config.NUM_VEHICLES Config.DEPOT_INDEX in
  (mgr,
   mkRoutingModel mgr
                  (cost_callback self mgr)
                  [capacity_dimension self mgr; time_dimension self mgr]
                  (time_windows self mgr)
                  (drop_disjunctions self mgr)).

Definition search_parameters : SearchParameters :=
  mkSearchParameters PATH_CHEAPEST_ARC 10.

(** The search itself is the library's; [SolveWithParameters] stands for it. *)
Definition solve
           (SolveWithParameters : RoutingModel -> SearchParameters -> option Assignment)
           (self : RouteOptimizer) : RouteOptimizer :=
  let (mgr, model) := build_model self in
  mkRouteOptimizer (df self) (dist_matrix self) (time_matrix self)
                   (Some mgr) (Some model)
                   (SolveWithParameters model search_parameters).

(** *** [print_solution] *)

Definition dropped_nodes_of (mgr : Manager) (sol : Assignment) : list nat :=
  filter (fun node => negb (IsStart mgr node || IsEnd mgr node)
                      && (NextVar sol node =? node))
         (seq 0 (Size mgr)).

(** The [while not self.routing.IsEnd(index)] loop.  [None]: the loop is
    still running when the fuel is used up. *)
Fixpoint route_loop (self : RouteOptimizer) (mgr : Manager) (sol : Assignment)
         (fuel index : nat) (route_sequence : list nat)
         (route_dist route_time : float)
  : option (result (nat * list nat * float * float)) :=
  if IsEnd mgr index then Some (Ok (index, route_sequence, route_dist, route_time))
  else
    match fuel with
    | O => None
    | S fuel' =>
        let node_index := IndexToNode mgr index in
        let route_sequence := route_sequence ++ [node_index] in
        let previous_index := index in
        let index := NextVar sol index in
        let from_node := IndexToNode mgr previous_index in
        let to_node := IndexToNode mgr index in
        match getitem2 (dist_matrix self) from_node to_node with
        | Raise e => Some (Raise e)
        | Ok d =>
            match getitem2 (time_matrix self) from_node to_node with
            | Raise e => Some (Raise e)
            | Ok t => route_loop self mgr sol fuel' index route_sequence
                                 (fadd route_dist d) (fadd route_time t)
            end
        end
    end.

(** The [for vehicle_id in range(config.NUM_VEHICLES)] loop. *)
Fixpoint vehicles_loop (self : RouteOptimizer) (mgr : Manager) (sol : Assignment)
         (fuel : nat) (vehicles : list nat) (routes : list Route)
  : option (result (list Route)) :=
  match vehicles with
  | [] => Some (Ok routes)
  | vehicle_id :: rest =>
      match route_loop self mgr sol fuel (Start mgr vehicle_id) []
                       (of_int 0) (of_int 0) with
      | None => None
      | Some (Raise e) => Some (Raise e)
      | Some (Ok (index, route_sequence, route_dist, route_time)) =>
          let node_index := IndexToNode mgr index in
          let route_sequence := route_sequence ++ [node_index] in
          vehicles_loop self mgr sol fuel rest
                        (routes ++ [mkRoute vehicle_id route_sequence
                                            route_dist route_time])
      end
  end.

(** The result pairs the printed list of dropped nodes with the returned
    routes; [Ok None] is the [return None] taken when there is no solution. *)
Definition print_solution (fuel : nat) (self : RouteOptimizer)
  : option (result (option (list nat * list Route))) :=
  match solution self with
  | None => Some (Ok None)
  | Some sol =>
      match routing self, manager self with
      | Some model, Some mgr =>
          let dropped_nodes := dropped_nodes_of (model_manager model) sol in
          match vehicles_loop self mgr sol fuel (seq 0 Config.NUM_VEHICLES) [] with
          | None => None
          | Some (Raise e) => Some (Raise e)
          | Some (Ok routes) => Some (Ok (Some (dropped_nodes, routes)))
          end
      | _, _ => Some (Raise AttributeError)
      end
  end.

End RouteOptimizer.

Arguments RouteOptimizer C : clear implicits.

(** A matrix with [n] rows of [n] entries. *)
Definition square (n : nat) (m : Matrix) : bool :=
  (List.length m =? n) && forallb (fun row => List.length row =? n) m.

End Optimizer.

(** ** data_utils.py *)

Module DataUtils.
Import Py Data.

Fixpoint mapM {A B : Type} (f : A -> result B) (l : list A) : result (list B) :=
  match l with
  | [] => Ok []
  | a :: r => b <- f a ;; bs <- mapM f r ;; Ok (b :: bs)
  end.

(** *** Loading the node table *)

Definition required_columns : list string :=
  ["id"; "lat"; "lon"; "demand"; "priority"]%string.

(** The columns of [required_columns] that the table lacks. *)
Definition missing_columns (columns : list string) : list string :=
  filter (fun col => negb (existsb (String.eqb col) columns)) required_columns.

(** [load_data_from_csv].  [read_csv] is what [pd.read_csv] gave, a table or
    an exception, and [columns] gives the column names of a table.  Every
    exception, the [ValueError] for missing columns included, is caught and
    turned into [None]. *)
Definition load_data_from_csv {T : Type} (columns : T -> list string)
           (read_csv : result T) : option T :=
  let attempt :=
    df <- read_csv ;;
    if forallb (fun col => existsb (String.eqb col) (columns df)) required_columns
    then Ok df
    else Raise ValueError in
  match attempt with
  | Ok df => Some df
  | Raise _ => None
  end.

(** *** The matrices read from the routing service *)

(** A cell of the response: its [routeSummary], when it has one, with
    [lengthInMeters] and [travelTimeInSeconds]. *)
Definition Cell : Type := option (Z * Z).

Definition cell_entry (cell : Cell) : float * float :=
  match cell with
  | Some (lengthInMeters, travelTimeInSeconds) =>
      (of_int lengthInMeters, of_int travelTimeInSeconds)
  | None => (PInf, PInf)
  end.

Definition api_matrices (size : nat) (data_matrix : list Cell)
  : result (Optimizer.Matrix * Optimizer.Matrix) :=
  cells <- mapM (fun i =>
                   mapM (fun j =>
                           cell <- getitem data_matrix (i * size + j) ;;
                           Ok (cell_entry cell))
                        (seq 0 size))
                (seq 0 size) ;;
  Ok (map (map fst) cells, map (map snd) cells).

(** *** The geodesic fallback, over the real numbers *)

Local Open Scope R_scope.

Definition radians (x : R) : R := x * (PI / 180).

(** [math.sqrt] and [math.asin] raise outside their domains. *)
Definition py_sqrt (x : R) : result R :=
  if Rlt_dec x 0 then Raise ValueError else Ok (sqrt x).

Definition py_asin (x : R) : result R :=
  if Rlt_dec x (-1) then Raise ValueError
  else if Rlt_dec 1 x then Raise ValueError
  else Ok (asin x).

Definition haversine_distance (lat1 lon1 lat2 lon2 : R) : result R :=
  let lon1 := radians lon1 in
  let lat1 := radians lat1 in
  let lon2 := radians lon2 in
  let lat2 := radians lat2 in
  let dlon := lon2 - lon1 in
  let dlat := lat2 - lat1 in
  let a := sin (dlat / 2) ^ 2 + cos lat1 * cos lat2 * sin (dlon / 2) ^ 2 in
  s <- py_sqrt a ;;
  h <- py_asin s ;;
  let c := 2 * h in
  let r := 6371 in
  Ok (c * r * 1000).

Definition speed_mps : R := Config.FALLBACK_SPEED_KMH * 1000 / 3600.

Definition fallback_entry (coords : list (R * R)) (i j : nat) : result (R * R) :=
  if (i =? j)%nat then Ok (0, 0)
  else
    ci <- getitem coords i ;;
    cj <- getitem coords j ;;
    dist <- haversine_distance (fst ci) (snd ci) (fst cj) (snd cj) ;;
    Ok (dist, dist / speed_mps).

(** The fallback branch of [get_tomtom_matrix]: distances, then durations. *)
Definition fallback_matrices (df_locations : DataFrame R)
  : result (list (list R) * list (list R)) :=
  let size := List.length df_locations in
  let coords := map (fun row => (lat row, lon row)) df_locations in
  cells <- mapM (fun i => mapM (fun j => fallback_entry coords i j) (seq 0 size))
                (seq 0 size) ;;
  Ok (map (map fst) cells, map (map snd) cells).

(** [m[i][j]] for positions inside the matrix. *)
Definition entry (m : list (list R)) (i j : nat) : R := nth j (nth i m []) 0.

End DataUtils.

(** ** The statements of the specification that the code is compared with *)

Module Spec.
Import Py Data Routing.

(** Section 4.1: a matrix that is not square, whose dimension is not the
    number of rows of the node table, or that has a negative finite entry. *)
Definition negative_entry (x : float) : bool :=
  match x with
  | Fin q => negb (Qle_bool 0 q)
  | _ => false
  end.

Definition malformed_matrix (n : nat) (m : Optimizer.Matrix) : bool :=
  negb (Optimizer.square (List.length m) m)
  || negb (List.length m =? n)
  || existsb (existsb negative_entry) m.

Definition malformed {C : Type} (df : DataFrame C) (dist time : Optimizer.Matrix) : bool :=
  malformed_matrix (List.length df) dist || malformed_matrix (List.length df) time.

Definition construction_rejects_malformed (C : Type) : Prop :=
  forall (df : DataFrame C) (dist time : Optimizer.Matrix),
    malformed df dist time = true ->
    Optimizer.__init__ df dist time = Raise MalformedInput.

(** Section 3, invariant 3: the range put on a node's cumulative time is the
    window the node table gives for it; a node without one gets no range. *)
Definition range_of (ranges : list (string * nat * (Z * Z))) (index : nat)
  : option (Z * Z) :=
  match find (fun r => Nat.eqb (snd (fst r)) index) ranges with
  | Some r => Some (snd r)
  | None => None
  end.

Definition windows_follow_input {C : Type} (df : DataFrame C) : Prop :=
  forall (dist time : Optimizer.Matrix) (mgr : Manager) (i : nat) (row : Row C),
    nth_error df i = Some row ->
    range_of (Optimizer.time_windows
                (Optimizer.mkRouteOptimizer df dist time None None None) mgr)
             (NodeToIndex mgr i)
    = window row.

(** Section 3: [cost(i,j) = time(i,j)*W_time + distance(i,j)*W_fuel]. *)
Definition arc_cost (t d : Q) : Q :=
  (t * Config.WEIGHT_TIME + d * Config.WEIGHT_FUEL)%Q.

Definition arc_cost_is_exact {C : Type} (self : Optimizer.RouteOptimizer C)
           (mgr : Manager) (i j : nat) : Prop :=
  forall t d : Q,
    getitem2 (Optimizer.time_matrix self) (IndexToNode mgr i) (IndexToNode mgr j)
      = Ok (Fin t) ->
    getitem2 (Optimizer.dist_matrix self) (IndexToNode mgr i) (IndexToNode mgr j)
      = Ok (Fin d) ->
    exists c : Z, Optimizer.cost_callback self mgr i j = Ok c
                  /\ (inject_Z c == arc_cost t d)%Q.

(** Section 4.3: the depot has cumulative time 0 at the start of a route. *)
Definition depot_starts_at_zero {C : Type} (self : Optimizer.RouteOptimizer C) : Prop :=
  forall (vehicle : nat) (cumul : nat -> Z) (path : list nat),
    let (mgr, model) := Optimizer.build_model self in
    hd_error path = Some (Start mgr vehicle) ->
    dimension_admits (Optimizer.time_dimension self mgr) vehicle cumul path = true ->
    ranges_admit model "Time" cumul path = true ->
    cumul (Start mgr vehicle) = 0%Z.

End Spec.

(** ** Sample inputs *)

Module Samples.
Import Py Data Routing.
Local Open Scope Q_scope.

Definition depot_row : Row Q := mkRow "Depot" (5252 # 100) (13405 # 1000) 0 0 None.

Definition stop (name : string) (demand priority : Z) (w : option (Z * Z)) : Row Q :=
  mkRow name (5253 # 100) (13410 # 1000) demand priority w.

(** A depot and one stop. *)
Definition table2 : DataFrame Q := [depot_row; stop "Stop_1" 2 1 None].

(** A depot and three stops; the first stop carries the window [0, 100]. *)
Definition table4 : DataFrame Q :=
  [depot_row;
   stop "Stop_1" 2 1 (Some (0, 100)%Z);
   stop "Stop_2" 3 2 None;
   stop "Stop_3" 1 3 None].

Definition uniform (n : nat) (x : float) : Optimizer.Matrix := repeat (repeat x n) n.

(** A response of the routing service for two locations in which the cell
    from the depot to the stop has no [routeSummary]. *)
Definition response2 : list DataUtils.Cell :=
  [Some (0, 0)%Z; None; Some (1200, 300)%Z; Some (0, 0)%Z].

Definition optimizer_of (df : DataFrame Q) (dist time : Optimizer.Matrix)
  : Optimizer.RouteOptimizer Q :=
  Optimizer.mkRouteOptimizer df dist time None None None.

(** A solver that answers with a fixed assignment. *)
Definition answer (a : Assignment) (_ : RoutingModel) (_ : SearchParameters)
  : option Assignment := Some a.

(** Four locations: the vehicle visits 2 then 3, and 1 is left out. *)
Definition next4 (i : nat) : nat :=
  match i with
  | 0 => 2
  | 1 => 1
  | 2 => 3
  | _ => 4
  end%nat.

Definition assignment4 : Assignment := mkAssignment next4 10000025.

(** A schedule for the route depot, stop 1, depot over travel times of 10
    seconds: the vehicle leaves the depot at 3590. *)
Definition late_start (index : nat) : Z :=
  match index with
  | 0%nat => 3590
  | 1%nat => 3600
  | _ => 3610
  end%Z.

(** The two locations of [table2] with real coordinates. *)
Definition locations2 : DataFrame R :=
  [mkRow "Depot" (5252 / 100)%R (13405 / 1000)%R 0 0 None;
   mkRow "Stop_1" (5253 / 100)%R (13410 / 1000)%R 2 1 None].

(** Four locations again: 1 and 2 point at each other, which no route does. *)
Definition cycle4 (i : nat) : nat :=
  match i with
  | 0 => 3
  | 1 => 2
  | 2 => 1
  | _ => 4
  end%nat.

(** The optimizer of [table4] over uniform matrices, solved by [assignment4]. *)
Definition solved4 : Optimizer.RouteOptimizer Q :=
  Optimizer.solve (answer assignment4)
                  (optimizer_of table4 (uniform 4 (of_int 10)) (uniform 4 (of_int 10))).

End Samples.

(** ** The rest of main.py *)

Module MainFlow.
Import Py Data Optimizer.

(** [str(z)] for an integer. *)
Definition str_of_int (z : Z) : string := NilZero.string_of_int (Z.to_int z).

Definition colors : list string :=
  ["blue"; "green"; "red"; "purple"; "orange"]%string.

Record Marker (C : Type) : Type := mkMarker {
  marker_location : C * C;
  marker_popup : string;
  marker_color : string;
  marker_icon : string
}.
Arguments mkMarker {C} _ _ _ _.
Arguments marker_location {C} _.
Arguments marker_popup {C} _.
Arguments marker_color {C} _.
Arguments marker_icon {C} _.

Record PolyLine (C : Type) : Type := mkPolyLine {
  line_locations : list (C * C);
  line_color : string
}.
Arguments mkPolyLine {C} _ _.
Arguments line_locations {C} _.
Arguments line_color {C} _.

(** The map that [visualize_route] saves. *)
Record Map (C : Type) : Type := mkMap {
  map_location : C * C;
  map_markers : list (Marker C);
  map_lines : list (PolyLine C)
}.
Arguments mkMap {C} _ _ _.
Arguments map_location {C} _.
Arguments map_markers {C} _.
Arguments map_lines {C} _.

Section Visualize.
Context {C : Type}.

Definition plot_point (ir : nat * Row C) : Marker C :=
  let (i, row) := ir in
  let color := if i =? Config.DEPOT_INDEX then "black"%string else "red"%string in
  let icon := if i =? Config.DEPOT_INDEX then "home"%string else "info-sign"%string in
  let popup_text := (id row ++ " (Pri: " ++ str_of_int (priority row) ++ ")")%string in
  mkMarker (lat row, lon row) popup_text color icon.

(** The inner loop over [route['sequence']]: [df_data.iloc[idx]] raises on a
    position outside the table. *)
Definition route_coords (df_data : DataFrame C) (sequence_indices : list nat)
  : result (list (C * C)) :=
  DataUtils.mapM (fun idx => row <- getitem df_data idx ;; Ok (lat row, lon row))
                 sequence_indices.

Definition plot_route (df_data : DataFrame C) (route : Route) : result (PolyLine C) :=
  let vehicle_id := vehicle route in
  route_coords <- route_coords df_data (sequence route) ;;
  color <- getitem colors (vehicle_id mod List.length colors) ;;
  Ok (mkPolyLine route_coords color).

(** [visualize_route]: [Ok None] is the early return on an empty list of
    routes, [Ok (Some m)] the map that is saved. *)
Definition visualize_route (df_data : DataFrame C) (routes : list Route)
  : result (option (Map C)) :=
  match routes with
  | [] => Ok None
  | _ =>
      depot <- getitem df_data Config.DEPOT_INDEX ;;
      let markers := map plot_point (iterrows df_data) in
      lines <- DataUtils.mapM (plot_route df_data) routes ;;
      Ok (Some (mkMap (lat depot, lon depot) markers lines))
  end.

End Visualize.

(** The simulation at the end of [main]: the answers of the check for a
    delay of 10% and for a delay of 20% of the first route's time; no answer
    when there is no route. *)
Definition dynamic_trigger (routes : list Route) : result (list bool) :=
  match routes with
  | [] => Ok []
  | route :: _ =>
      let initial_eta := time route in
      let new_eta_minor := fmul initial_eta (Fin (110 # 100)) in
      minor <- Main.check_reoptimization new_eta_minor initial_eta ;;
      let new_eta_major := fmul initial_eta (Fin (120 # 100)) in
      major <- Main.check_reoptimization new_eta_major initial_eta ;;
      Ok [minor; major]
  end.

End MainFlow.

(** ** Quantities used to state what the program computes *)

Module Measures.
Import Py Data Routing Optimizer.

(** The sum of the entries of [m] over the consecutive pairs of [path],
    added to [acc] from left to right. *)
Fixpoint arcs_total (m : Matrix) (path : list nat) (acc : float) : result float :=
  match path with
  | a :: ((b :: _) as rest) =>
      v <- getitem2 m a b ;; arcs_total m rest (fadd acc v)
  | _ => Ok acc
  end.

Definition total (l : list Z) : Z := fold_right Z.add 0%Z l.

Definition finite (x : float) : bool :=
  match x with
  | Fin _ => true
  | _ => false
  end.

(** A finite value that is not negative. *)
Definition finite_nonneg (x : float) : bool :=
  match x with
  | Fin q => Qle_bool 0 q
  | _ => false
  end.

Definition all_entries (p : float -> bool) (m : Matrix) : bool :=
  forallb (forallb p) m.

End Measures.

(** ** main *)

Module MainProgram.
Import Py Data Routing Optimizer MainFlow.

(** How a run of [main] ends when it raises nothing: the table could not be
    loaded, the solver found nothing, or the routes were reported, drawn and
    put through the simulation of the trigger. *)
Inductive Outcome (C : Type) : Type :=
| LoadFailed
| NoSolution
| Completed (routes : option (list Route)) (drawing : option (Map C))
            (triggers : list bool).
Arguments LoadFailed {C}.
Arguments NoSolution {C}.
Arguments Completed {C} _ _ _.

(** [main].  Reading the file and asking the routing service are left to
    the arguments: [loaded] is what [load_data_from_csv] returned and
    [get_tomtom_matrix] what the matrix provider answers for a table. *)
Definition main {C : Type} (loaded : option (DataFrame C))
           (get_tomtom_matrix : DataFrame C -> Matrix * Matrix)
           (SolveWithParameters : RoutingModel -> SearchParameters -> option Assignment)
           (fuel : nat) : option (result (Outcome C)) :=
  match loaded with
  | None => Some (Ok LoadFailed)
  | Some df =>
      let (dist_matrix, time_matrix) := get_tomtom_matrix df in
      match __init__ df dist_matrix time_matrix with
      | Raise e => Some (Raise e)
      | Ok optimizer =>
          let optimizer := solve SolveWithParameters optimizer in
          match solution optimizer with
          | None => Some (Ok NoSolution)
          | Some _ =>
              match print_solution fuel optimizer with
              | None => None
              | Some (Raise e) => Some (Raise e)
              | Some (Ok report) =>
                  let routes := option_map snd report in
                  let listed := match routes with Some l => l | None => [] end in
                  Some (drawing <- visualize_route df listed ;;
                        triggers <- dynamic_trigger listed ;;
                        Ok (Completed routes drawing triggers))
              end
          end
      end
  end.

End MainProgram.

(** * Properties *)

(** ** The re-optimization check of main.py *)

Module MainProps.
Import Py Main.
Local Open Scope Q_scope.



(** C9: the check is total: it returns a boolean for every pair of inputs,
    and when the predicted time is zero it returns [False]; the quotient,
    which raises on a zero divisor, is never reached with one. *)
Theorem check_reoptimization_total (current_eta predicted_eta : float) :
  (exists b, check_reoptimization current_eta predicted_eta = Ok b) /\
  (feq_zero predicted_eta = true ->
     check_reoptimization current_eta predicted_eta = Ok false).
Proof.
  unfold check_reoptimization, fdiv.
  destruct (feq_zero predicted_eta) eqn:E.
  - split; [exists false; reflexivity | reflexivity].
  - split; [eexists; reflexivity | discriminate].
Qed.

Lemma check_reoptimization_total_witness :
  feq_zero (Fin 0) = true /\ check_reoptimization (Fin 500) (Fin 0) = Ok false.
Proof.
  split; [reflexivity |].
  apply (proj2 (check_reoptimization_total (Fin 500) (Fin 0))). reflexivity.
Defined.

(** The two scenarios that [main] simulates, and a deviation of exactly 15%. *)
Example minor_delay : check_reoptimization (Fin 110) (Fin 100) = Ok false.
Proof. reflexivity. Qed.

Example major_delay : check_reoptimization (Fin 120) (Fin 100) = Ok true.
Proof. reflexivity. Qed.

Example fifteen_percent : check_reoptimization (Fin 115) (Fin 100) = Ok false.
Proof. reflexivity. Qed.

Example negative_prediction : check_reoptimization (Fin 0) (Fin (-100)) = Ok false.
Proof. reflexivity. Qed.

End MainProps.

(** ** Truncation toward zero *)

Module Truncation.
Import Py.
Local Open Scope Q_scope.

Lemma Qtruncate_floor (q : Q) : 0 <= q -> Qtruncate q = Qfloor q.
Proof.
  destruct q as [n d]. unfold Qle, Qtruncate, Qfloor. cbn.
  intros H. apply Z.quot_div_nonneg; lia.
Qed.

Lemma Qtruncate_ceiling (q : Q) : q <= 0 -> Qtruncate q = Qceiling q.
Proof.
  destruct q as [n d]. unfold Qle, Qtruncate, Qceiling, Qfloor. cbn.
  intros H.
  rewrite <- (Z.opp_involutive n) at 1.
  rewrite Z.quot_opp_l by discriminate.
  f_equal. apply Z.quot_div_nonneg; lia.
Qed.

Lemma Qtruncate_nonneg (q : Q) :
  0 <= q -> inject_Z (Qtruncate q) <= q /\ q < inject_Z (Qtruncate q) + 1.
Proof.
  intros H. rewrite (Qtruncate_floor q H). split.
  - apply Qfloor_le.
  - pose proof (Qlt_floor q) as L. rewrite inject_Z_plus in L. exact L.
Qed.

Lemma Qtruncate_nonpos (q : Q) :
  q <= 0 -> inject_Z (Qtruncate q) - 1 < q /\ q <= inject_Z (Qtruncate q).
Proof.
  intros H. rewrite (Qtruncate_ceiling q H). split.
  - assert (E : inject_Z (Qceiling q) - 1 == inject_Z (Qceiling q - 1)).
    { unfold Z.sub. rewrite inject_Z_plus. reflexivity. }
    rewrite E. apply Qceiling_lt.
  - apply Qle_ceiling.
Qed.

Lemma Qtruncate_inject (z : Z) : Qtruncate (inject_Z z) = z.
Proof. unfold Qtruncate. cbn. apply Z.quot_1_r. Qed.

End Truncation.

(** ** The model built by optimizer.py *)

Module OptimizerProps.
Import Py Data Routing Optimizer.

(** *** Arc cost *)

(** An infinite entry makes [int(cost)] raise. *)
Lemma cost_callback_infinite {C : Type} (self : RouteOptimizer C) (mgr : Manager)
      (i j : nat) :
  getitem2 (time_matrix self) (IndexToNode mgr i) (IndexToNode mgr j) = Ok PInf ->
  getitem2 (dist_matrix self) (IndexToNode mgr i) (IndexToNode mgr j) = Ok PInf ->
  cost_callback self mgr i j = Raise OverflowError.
Proof.
  intros Ht Hd. unfold cost_callback. rewrite Ht, Hd. reflexivity.
Qed.

(** C2: an unreachable cell of the service's response becomes an infinite
    entry of both matrices, and on that entry the arc-cost callback and the
    transit-time callback raise [OverflowError]. *)
Theorem unreachable_arc_raises :
  exists dist time,
    DataUtils.api_matrices 2 Samples.response2 = Ok (dist, time)
    /\ getitem2 time 0 1 = Ok PInf
    /\ getitem2 dist 0 1 = Ok PInf
    /\ let self := Samples.optimizer_of Samples.table2 dist time in
       let mgr := fst (build_model self) in
       cost_callback self mgr 0 1 = Raise OverflowError
       /\ time_callback self mgr 0 1 = Raise OverflowError.
Proof.
  eexists. eexists. split; [reflexivity |].
  repeat split; reflexivity.
Qed.




(** *** Construction *)

(** C3, as the specification states it, fails: a distance matrix of one row
    and two columns is accepted. *)
Lemma malformed_input_accepted : ~ Spec.construction_rejects_malformed Q.
Proof.
  intros H.
  specialize (H Samples.table2 [[of_int 0; of_int 5]] (Samples.uniform 2 (of_int 5))
                eq_refl).
  discriminate H.
Qed.

(** C3, amended: construction checks nothing; for every node table and every
    pair of matrices it succeeds and stores the three arguments unchanged,
    with no manager, model or solution yet. *)
Theorem construction_stores_arguments {C : Type} (df_data : DataFrame C)
        (dist time : Matrix) :
  exists self,
    __init__ df_data dist time = Ok self
    /\ df self = df_data /\ dist_matrix self = dist /\ time_matrix self = time
    /\ manager self = None /\ routing self = None /\ solution self = None.
Proof.
  eexists. split; [reflexivity |]. repeat split.
Qed.

(** *** Loops over the rows of the node table *)

Ltac nat_cases :=
  repeat match goal with
         | |- context [?a <=? ?b] => destruct (Nat.leb_spec a b)
         | |- context [?a <? ?b] => destruct (Nat.ltb_spec a b)
         | |- context [?a =? ?b] => destruct (Nat.eqb_spec a b)
         end.

Lemma find_app {A : Type} (f : A -> bool) (l1 l2 : list A) :
  find f (l1 ++ l2) = match find f l1 with
                      | Some a => Some a
                      | None => find f l2
                      end.
Proof.
  induction l1 as [| a l1 IH]; cbn; [reflexivity |].
  destruct (f a); [reflexivity | exact IH].
Qed.

Section RowLoops.
Context {C : Type}.
Variable mgr : Manager.

Let window_step (ir : nat * Row C) : list (string * nat * (Z * Z)) :=
  let (i, row) := ir in
  if i =? 0 then []
  else [("Time"%string, NodeToIndex mgr i, time_window_of i)].

Let penalty_step (ir : nat * Row C) : list (list nat * Z) :=
  let (i, row) := ir in
  if i =? 0 then []
  else [([NodeToIndex mgr i], penalty_of (priority row))].

Lemma range_of_windows_from (rows : list (Row C)) (i : nat) :
  forall s : nat,
    Spec.range_of (flat_map window_step (combine (seq s (List.length rows)) rows)) i
    = if (s <=? i) && (i <? s + List.length rows) && negb (i =? 0)
      then Some (time_window_of i) else None.
Proof.
  induction rows as [| r rows IH]; intros s.
  - cbn [List.length seq combine flat_map]. unfold Spec.range_of, penalties_of.
    cbn [find filter map]. nat_cases; cbn [andb negb orb]; try reflexivity; lia.
  - cbn [List.length seq combine flat_map window_step].
    unfold Spec.range_of in *. rewrite find_app.
    destruct (s =? 0) eqn:Es.
    + cbn [find]. rewrite IH. apply Nat.eqb_eq in Es. subst s.
      nat_cases; cbn [andb negb orb]; try reflexivity; lia.
    + apply Nat.eqb_neq in Es. unfold NodeToIndex. cbn [find fst snd].
      destruct (Nat.eqb_spec s i) as [-> | Hne].
      * nat_cases; cbn [andb negb orb]; try reflexivity; lia.
      * rewrite IH. nat_cases; cbn [andb negb orb]; try reflexivity; lia.
Qed.

Lemma penalties_of_disjunctions_from (rows : list (Row C)) (i : nat) :
  forall s : nat,
    penalties_of (flat_map penalty_step (combine (seq s (List.length rows)) rows)) i
    = if (s <=? i) && (i <? s + List.length rows) && negb (i =? 0)
      then match nth_error rows (i - s) with
           | Some row => [penalty_of (priority row)]
           | None => []
           end
      else [].
Proof.
  induction rows as [| r rows IH]; intros s.
  - cbn [List.length seq combine flat_map]. unfold Spec.range_of, penalties_of.
    cbn [find filter map]. nat_cases; cbn [andb negb orb]; try reflexivity; lia.
  - cbn [List.length seq combine flat_map penalty_step].
    unfold penalties_of in *. rewrite filter_app, map_app, IH.
    destruct (Nat.eqb_spec s 0) as [-> | Es].
    + cbn [filter map app]. nat_cases; cbn [andb negb]; try reflexivity; try lia.
      replace (i - 0)%nat with (S (i - 1)) by lia. reflexivity.
    + unfold NodeToIndex. cbn [filter map fst snd existsb].
      destruct (Nat.eqb_spec i s) as [-> | Hne].
      * cbn [orb map app]. rewrite Nat.sub_diag.
        nat_cases; cbn [andb negb orb]; try reflexivity; lia.
      * cbn [orb map app].
        nat_cases; cbn [andb negb]; try reflexivity; try lia.
        replace (i - s)%nat with (S (i - S s)) by lia. reflexivity.
Qed.

End RowLoops.

(** *** Time windows *)

(** C4, as the specification states it, fails: the first stop of the sample
    table carries the window [0, 100], and the range put on its cumulative
    time is [3600, 21600]. *)
Lemma windows_ignore_input : ~ Spec.windows_follow_input Samples.table4.
Proof.
  intros H.
  specialize (H [] [] (mkManager 4 Config.NUM_VEHICLES Config.DEPOT_INDEX) 1%nat
                (Samples.stop "Stop_1" 2 1 (Some (0, 100)%Z)) eq_refl).
  vm_compute in H. discriminate H.
Qed.

(** C4, amended: the windows are not read from the node table.  Every row but
    the first gets the range [1800, 14400] on its cumulative time when its
    index is even and [3600, 21600] when it is odd, whatever the row holds;
    the first row, the depot, gets none. *)
Theorem time_windows_by_parity {C : Type} (self : RouteOptimizer C) (mgr : Manager)
        (i : nat) (row : Row C) :
  nth_error (df self) i = Some row ->
  Spec.range_of (time_windows self mgr) (NodeToIndex mgr i)
  = if i =? 0 then None
    else Some (if i mod 2 =? 0 then (1800, 14400)%Z else (3600, 21600)%Z).
Proof.
  intros Hrow.
  assert (Hlt : (i < List.length (df self))%nat).
  { apply nth_error_Some. congruence. }
  unfold time_windows, iterrows.
  rewrite (range_of_windows_from mgr (df self) (NodeToIndex mgr i) 0).
  unfold time_window_of, NodeToIndex.
  nat_cases; cbn [andb negb]; try reflexivity; lia.
Qed.

Lemma time_windows_by_parity_witness :
  let self := Samples.optimizer_of Samples.table4 [] [] in
  let mgr := fst (build_model self) in
  Spec.range_of (time_windows self mgr) (NodeToIndex mgr 2) = Some (1800, 14400)%Z.
Proof.
  intros self mgr.
  exact (time_windows_by_parity self mgr 2 (Samples.stop "Stop_2" 3 2 None) eq_refl).
Defined.

(** *** Drop penalties *)

(** C5: every row [i] other than the depot's is given exactly one drop
    option, and its cost is [W_priority * priority(i) * penalty_base]; the
    depot is given none. *)
Theorem drop_penalty_of_priority {C : Type} (self : RouteOptimizer C)
        (i : nat) (row : Row C) :
  nth_error (df self) i = Some row ->
  i <> Config.DEPOT_INDEX ->
  let mgr := fst (build_model self) in
  let model := snd (build_model self) in
  (exists penalty : Z,
      penalties_of (disjunctions model) (NodeToIndex mgr i) = [penalty]
      /\ (inject_Z penalty
          == Config.WEIGHT_PRIORITY * inject_Z (priority row) * penalty_base)%Q)
  /\ penalties_of (disjunctions model) (NodeToIndex mgr Config.DEPOT_INDEX) = [].
Proof.
  intros Hrow Hi mgr model.
  assert (Hlt : (i < List.length (df self))%nat).
  { apply nth_error_Some. congruence. }
  unfold Config.DEPOT_INDEX in *.
  subst model. cbn [build_model snd disjunctions].
  unfold drop_disjunctions, iterrows.
  rewrite !(penalties_of_disjunctions_from _ (df self) _ 0).
  unfold NodeToIndex.
  split.
  - exists (penalty_of (priority row)). split.
    + rewrite Nat.sub_0_r, Hrow.
      nat_cases; cbn [andb negb]; try reflexivity; lia.
    + unfold penalty_of, Config.WEIGHT_PRIORITY, penalty_base.
      change 100%Q with (inject_Z 100). change 100000%Q with (inject_Z 100000).
      rewrite <- !inject_Z_mult.
      rewrite Truncation.Qtruncate_inject. reflexivity.
  - nat_cases; cbn [andb negb]; try reflexivity; lia.
Qed.

Lemma drop_penalty_of_priority_witness :
  let self := Samples.optimizer_of Samples.table4 [] [] in
  let mgr := fst (build_model self) in
  let model := snd (build_model self) in
  (exists penalty : Z,
      penalties_of (disjunctions model) (NodeToIndex mgr 3) = [penalty]
      /\ (inject_Z penalty == Config.WEIGHT_PRIORITY * inject_Z 3 * penalty_base)%Q)
  /\ penalties_of (disjunctions model) (NodeToIndex mgr Config.DEPOT_INDEX) = [].
Proof.
  intros self.
  refine (drop_penalty_of_priority self 3 (Samples.stop "Stop_3" 1 3 None) eq_refl _).
  unfold Config.DEPOT_INDEX. lia.
Defined.

(** *** The time dimension *)

Section Dimensions.
Local Open Scope Z_scope.
Variable d : Dimension.
Variable capacity : Z.
Variable cumul : nat -> Z.

Lemma cumul_in_bounds (lo hi c : Z) : cumul_in lo hi c = true -> lo <= c <= hi.
Proof. unfold cumul_in. intros H. apply andb_prop in H. lia. Qed.

Lemma steps_admit_cumul (path : list nat) :
  steps_admit d capacity cumul path = true ->
  forall i, In i path -> 0 <= cumul i <= capacity.
Proof.
  induction path as [| a rest IH]; intros H i Hin; [destruct Hin |].
  cbn [steps_admit] in H. apply andb_prop in H. destruct H as [Ha Hrest].
  destruct Hin as [<- | Hin]; [apply cumul_in_bounds; exact Ha |].
  destruct rest as [| b rest']; [destruct Hin |].
  destruct (transit d a b); [| discriminate].
  apply andb_prop in Hrest. apply IH; [apply Hrest | exact Hin].
Qed.

Lemma steps_admit_slack (path : list nat) :
  steps_admit d capacity cumul path = true ->
  forall (k : nat) (i j : nat),
    nth_error path k = Some i -> nth_error path (S k) = Some j ->
    exists t, transit d i j = Ok t /\ 0 <= cumul j - cumul i - t <= slack_max d.
Proof.
  induction path as [| a rest IH]; intros H k i j Hi Hj; [destruct k; discriminate |].
  cbn [steps_admit] in H. apply andb_prop in H. destruct H as [_ Hrest].
  destruct rest as [| b rest']; [destruct k; discriminate |].
  destruct (transit d a b) as [t |] eqn:Et; [| discriminate].
  apply andb_prop in Hrest. destruct Hrest as [Hs Hrest].
  destruct k as [| k].
  - cbn in Hi, Hj. injection Hi as <-. injection Hj as <-.
    exists t. split; [exact Et | apply cumul_in_bounds; exact Hs].
  - apply (IH Hrest k); assumption.
Qed.

End Dimensions.




End OptimizerProps.

(** ** The geodesic fallback of data_utils.py *)

Module DataUtilsProps.
Import Py Data DataUtils.
Local Open Scope R_scope.

(** *** The argument of the square root lies between 0 and 1 *)

Lemma half_angle (x : R) : sin (x / 2) ^ 2 = (1 - cos x) / 2.
Proof.
  replace x with (2 * (x / 2)) at 2 by lra.
  rewrite cos_2a_sin. lra.
Qed.

Lemma haversine_argument_bounds (x1 x2 y : R) :
  0 <= sin ((x2 - x1) / 2) ^ 2 + cos x1 * cos x2 * sin (y / 2) ^ 2 <= 1.
Proof.
  rewrite !half_angle, cos_minus.
  pose proof (sin2_cos2 x1) as H1. pose proof (sin2_cos2 x2) as H2.
  pose proof (COS_bound y) as [Hl Hu].
  unfold Rsqr in H1, H2.
  set (s1 := sin x1) in *. set (c1 := cos x1) in *.
  set (s2 := sin x2) in *. set (c2 := cos x2) in *.
  set (u := cos y) in *.
  assert (Hu2 : 0 <= (1 - u * u) * (c2 * c2)).
  { apply Rmult_le_pos; nra. }
  split.
  - pose proof (Rle_0_sqr (s1 - s2)) as A. pose proof (Rle_0_sqr (c1 - u * c2)) as B.
    unfold Rsqr in A, B. nra.
  - pose proof (Rle_0_sqr (s1 + s2)) as A. pose proof (Rle_0_sqr (c1 + u * c2)) as B.
    unfold Rsqr in A, B. nra.
Qed.

Lemma haversine_argument_sym (x1 x2 y1 y2 : R) :
  sin ((x2 - x1) / 2) ^ 2 + cos x1 * cos x2 * sin ((y2 - y1) / 2) ^ 2
  = sin ((x1 - x2) / 2) ^ 2 + cos x2 * cos x1 * sin ((y1 - y2) / 2) ^ 2.
Proof.
  replace ((x1 - x2) / 2) with (- ((x2 - x1) / 2)) by lra.
  replace ((y1 - y2) / 2) with (- ((y2 - y1) / 2)) by lra.
  rewrite !sin_neg. ring.
Qed.

Lemma asin_nonneg (x : R) : 0 <= x <= 1 -> 0 <= asin x.
Proof.
  intros Hx.
  destruct (Rle_lt_dec 0 (asin x)) as [H | H]; [exact H | exfalso].
  pose proof (asin_bound x) as [Hl _].
  pose proof PI_RGT_0 as Hpi.
  assert (Hs : sin (asin x) < 0) by (apply sin_lt_0_var; lra).
  rewrite sin_asin in Hs; lra.
Qed.

Lemma haversine_distance_value (lat1 lon1 lat2 lon2 : R) :
  exists d : R,
    haversine_distance lat1 lon1 lat2 lon2 = Ok d
    /\ haversine_distance lat2 lon2 lat1 lon1 = Ok d
    /\ 0 <= d.
Proof.
  unfold haversine_distance. cbv zeta.
  rewrite (haversine_argument_sym (radians lat2) (radians lat1)
                                  (radians lon2) (radians lon1)).
  pose proof (haversine_argument_bounds (radians lat1) (radians lat2)
                                        (radians lon2 - radians lon1)) as [Hl Hu].
  set (a := sin ((radians lat2 - radians lat1) / 2) ^ 2
            + cos (radians lat1) * cos (radians lat2)
              * sin ((radians lon2 - radians lon1) / 2) ^ 2) in *.
  assert (Hs0 : 0 <= sqrt a) by apply sqrt_pos.
  assert (Hs1 : sqrt a <= 1).
  { rewrite <- sqrt_1. apply sqrt_le_1_alt. exact Hu. }
  unfold py_sqrt. destruct (Rlt_dec a 0) as [Hneg | _]; [lra |].
  cbn [bind]. unfold py_asin.
  destruct (Rlt_dec (sqrt a) (-1)) as [Hneg | _]; [lra |].
  destruct (Rlt_dec 1 (sqrt a)) as [Hbig | _]; [lra |].
  cbn [bind]. eexists. split; [reflexivity |]. split; [reflexivity |].
  pose proof (asin_nonneg (sqrt a) (conj Hs0 Hs1)). nra.
Qed.

(** *** Loops that fill a matrix *)

Lemma mapM_Forall2 {A B : Type} (f : A -> result B) (l : list A) :
  forall ys, mapM f l = Ok ys -> Forall2 (fun x y => f x = Ok y) l ys.
Proof.
  induction l as [| a l IH]; intros ys H; cbn in H.
  - injection H as <-. constructor.
  - destruct (f a) as [b |] eqn:Ea; [| discriminate H]. cbn in H.
    destruct (mapM f l) as [bs |]; [| discriminate H]. cbn in H.
    injection H as <-. constructor; [exact Ea | apply IH; reflexivity].
Qed.

Lemma mapM_total {A B : Type} (f : A -> result B) (l : list A) :
  (forall x, In x l -> exists y, f x = Ok y) -> exists ys, mapM f l = Ok ys.
Proof.
  induction l as [| a l IH]; intros H; cbn.
  - eexists; reflexivity.
  - destruct (H a (or_introl eq_refl)) as [b ->].
    destruct IH as [bs ->]; [intros x Hx; apply H; right; exact Hx |].
    eexists; reflexivity.
Qed.

Lemma Forall2_nth_error {A B : Type} (P : A -> B -> Prop) (l : list A) (ys : list B) :
  Forall2 P l ys ->
  forall (k : nat) (x : A), nth_error l k = Some x ->
                            exists y, nth_error ys k = Some y /\ P x y.
Proof.
  induction 1 as [| a b l ys Hab _ IH]; intros k x Hk.
  - destruct k; discriminate Hk.
  - destruct k as [| k]; cbn in Hk.
    + injection Hk as <-. exists b. split; [reflexivity | exact Hab].
    + apply IH. exact Hk.
Qed.

Lemma nth_error_range (n k : nat) : (k < n)%nat -> nth_error (seq 0 n) k = Some k.
Proof.
  intros H. rewrite (nth_error_nth' _ O) by (rewrite length_seq; exact H).
  rewrite seq_nth by exact H. reflexivity.
Qed.

(** The cell that a doubly nested loop over [range(n)] computes at [(i, j)]. *)
Lemma filled_cell {X : Type} (f : nat -> nat -> result X) (n : nat)
      (cells : list (list X)) (i j : nat) :
  mapM (fun i => mapM (fun j => f i j) (seq 0 n)) (seq 0 n) = Ok cells ->
  (i < n)%nat -> (j < n)%nat ->
  exists (row : list X) (c : X),
    nth_error cells i = Some row /\ nth_error row j = Some c /\ f i j = Ok c.
Proof.
  intros H Hi Hj.
  apply mapM_Forall2 in H.
  destruct (Forall2_nth_error _ _ _ H i i (nth_error_range n i Hi)) as [row [Hrow Hr]].
  apply mapM_Forall2 in Hr.
  destruct (Forall2_nth_error _ _ _ Hr j j (nth_error_range n j Hj)) as [c [Hc Hf]].
  exists row, c. auto.
Qed.

Lemma entry_of_cell (g : R * R -> R) (cells : list (list (R * R))) (i j : nat)
      (row : list (R * R)) (c : R * R) :
  nth_error cells i = Some row -> nth_error row j = Some c ->
  entry (map (map g) cells) i j = g c.
Proof.
  intros Hrow Hc. unfold entry.
  rewrite (nth_error_nth _ _ _ (map_nth_error (map g) _ _ Hrow)).
  apply nth_error_nth. apply map_nth_error. exact Hc.
Qed.

(** *** The entries of the fallback matrices *)

Lemma fallback_entry_value (coords : list (R * R)) (i j : nat) :
  (i < List.length coords)%nat -> (j < List.length coords)%nat ->
  exists d : R,
    fallback_entry coords i j = Ok (d, d / speed_mps)
    /\ fallback_entry coords j i = Ok (d, d / speed_mps)
    /\ (i = j -> d = 0).
Proof.
  intros Hi Hj. unfold fallback_entry.
  destruct (Nat.eqb_spec i j) as [-> | Hne].
  - exists 0. rewrite Nat.eqb_refl.
    replace (0 / speed_mps) with 0 by (unfold Rdiv; ring). auto.
  - destruct (Nat.eqb_spec j i) as [E | _]; [congruence |].
    unfold getitem.
    destruct (nth_error coords i) as [ci |] eqn:Ei;
      [| apply nth_error_None in Ei; lia].
    destruct (nth_error coords j) as [cj |] eqn:Ej;
      [| apply nth_error_None in Ej; lia].
    cbn [bind].
    destruct (haversine_distance_value (fst ci) (snd ci) (fst cj) (snd cj))
      as [d [-> [-> _]]].
    exists d. cbn [bind]. split; [reflexivity |]. split; [reflexivity |].
    intros E. contradiction.
Qed.

(** C10: the great-circle distance is defined for all real coordinates, is
    symmetric in its two points and is not negative; the fallback distance and
    time matrices built from it are symmetric with zero diagonals, and every
    time entry is the distance entry divided by 30 km/h in metres per
    second. *)
Theorem fallback_matrices_symmetric (df_locations : DataFrame R) :
  (forall lat1 lon1 lat2 lon2 : R,
      exists d : R,
        haversine_distance lat1 lon1 lat2 lon2 = Ok d
        /\ haversine_distance lat2 lon2 lat1 lon1 = Ok d
        /\ 0 <= d)
  /\ exists dist time : list (list R),
      fallback_matrices df_locations = Ok (dist, time)
      /\ forall i j : nat,
          (i < List.length df_locations)%nat -> (j < List.length df_locations)%nat ->
          entry dist i j = entry dist j i
          /\ entry time i j = entry time j i
          /\ entry dist i i = 0
          /\ entry time i i = 0
          /\ entry time i j = entry dist i j / (30 * 1000 / 3600).
Proof.
  split; [exact haversine_distance_value |].
  unfold fallback_matrices.
  set (n := List.length df_locations).
  set (coords := map (fun row => (lat row, lon row)) df_locations).
  assert (Hlen : List.length coords = n) by (unfold coords; apply length_map).
  assert (Hin : forall k, In k (seq 0 n) -> (k < List.length coords)%nat).
  { intros k Hk. apply in_seq in Hk. lia. }
  destruct (mapM_total (fun i => mapM (fun j => fallback_entry coords i j) (seq 0 n))
                       (seq 0 n)) as [cells Hcells].
  { intros i Hi. apply mapM_total. intros j Hj.
    destruct (fallback_entry_value coords i j (Hin i Hi) (Hin j Hj)) as [d [E _]].
    eexists; exact E. }
  rewrite Hcells. cbn [bind].
  eexists. eexists. split; [reflexivity |].
  intros i j Hi Hj.
  assert (cell : forall a b, (a < n)%nat -> (b < n)%nat ->
                 exists d, entry (map (map fst) cells) a b = d
                           /\ entry (map (map snd) cells) a b = d / speed_mps
                           /\ entry (map (map fst) cells) b a = d
                           /\ entry (map (map snd) cells) b a = d / speed_mps
                           /\ (a = b -> d = 0)).
  { intros a b Ha Hb.
    destruct (filled_cell _ n cells a b Hcells Ha Hb) as [ra [cab [Hra [Hcab Fab]]]].
    destruct (filled_cell _ n cells b a Hcells Hb Ha) as [rb [cba [Hrb [Hcba Fba]]]].
    destruct (fallback_entry_value coords a b) as [d [E1 [E2 E0]]]; [lia | lia |].
    rewrite E1 in Fab. rewrite E2 in Fba.
    injection Fab as <-. injection Fba as <-.
    exists d.
    rewrite !(entry_of_cell _ cells a b ra _ Hra Hcab).
    rewrite !(entry_of_cell _ cells b a rb _ Hrb Hcba).
    cbn [fst snd]. auto. }
  destruct (cell i j Hi Hj) as [d [D1 [T1 [D2 [T2 _]]]]].
  destruct (cell i i Hi Hi) as [z [Z1 [Z2 [_ [_ Z0]]]]].
  rewrite D1, T1, D2, T2, Z1, Z2, (Z0 eq_refl).
  unfold speed_mps, Config.FALLBACK_SPEED_KMH.
  repeat split; try reflexivity. unfold Rdiv; ring.
Qed.

Lemma fallback_matrices_symmetric_witness :
  exists dist time : list (list R),
    fallback_matrices Samples.locations2 = Ok (dist, time)
    /\ entry dist 0 1 = entry dist 1 0
    /\ entry time 0 1 = entry dist 0 1 / (30 * 1000 / 3600).
Proof.
  destruct (proj2 (fallback_matrices_symmetric Samples.locations2))
    as [dist [time [E H]]].
  exists dist, time. split; [exact E |].
  assert (H0 : (0 < List.length Samples.locations2)%nat) by (cbn; lia).
  assert (H1 : (1 < List.length Samples.locations2)%nat) by (cbn; lia).
  destruct (H 0%nat 1%nat H0 H1) as [S1 [_ [_ [_ S5]]]].
  split; [exact S1 | exact S5].
Defined.

End DataUtilsProps.

(** ** Routes and dropped nodes *)

Module Partition.
Import Py Data Routing Optimizer.
Local Open Scope nat_scope.

(** *** Successor chains of an assignment *)

Section Chains.
Variable n : nat.
Variable next : nat -> nat.
Hypothesis next_range : forall i, (i < n)%nat -> (1 <= next i <= n)%nat.
Hypothesis next_injective :
  forall i j, (i < n)%nat -> (j < n)%nat -> next i = next j -> i = j.

Local Abbreviation chain k x := (Nat.iter k next x).

Lemma chain_shift (k x : nat) : chain k (next x) = chain (S k) x.
Proof. symmetry. apply Nat.iter_succ_r. Qed.

(** Two chains that meet have met all along. *)
Lemma chain_back (m : nat) :
  forall k x y : nat,
    (m <= k)%nat ->
    (forall j, (j < m)%nat -> (chain j x < n)%nat) ->
    (forall j, (j < k)%nat -> (chain j y < n)%nat) ->
    chain m x = chain k y ->
    x = chain (k - m) y.
Proof.
  induction m as [| m IH]; intros k x y Hle Hx Hy E.
  - rewrite Nat.sub_0_r. exact E.
  - destruct k as [| k]; [lia |].
    rewrite !Nat.iter_succ in E.
    apply next_injective in E; [| apply Hx; lia | apply Hy; lia].
    change (S k - S m)%nat with (k - m)%nat.
    apply IH; [lia | intros j Hj; apply Hx; lia | intros j Hj; apply Hy; lia | exact E].
Qed.

Lemma chain_not_start (k x : nat) :
  (1 <= k)%nat -> (forall j, (j < k)%nat -> (chain j x < n)%nat) -> chain k x <> 0%nat.
Proof.
  intros Hk Hx. destruct k as [| k]; [lia |].
  rewrite Nat.iter_succ.
  pose proof (next_range (chain k x) (Hx k (Nat.lt_succ_diag_r k))). lia.
Qed.

Lemma chain_distinct (a b : nat) :
  (a < b)%nat -> (forall j, (j < b)%nat -> (chain j 0 < n)%nat) ->
  chain a 0 <> chain b 0.
Proof.
  intros Hab Hb E.
  apply chain_back in E; [| lia | intros j Hj; apply Hb; lia | exact Hb].
  apply (chain_not_start (b - a) 0); [lia | intros j Hj; apply Hb; lia |].
  symmetry. exact E.
Qed.

Lemma first_hit (j : nat) :
  forall x : nat,
    (n <= chain j x)%nat ->
    exists k, (k <= j)%nat /\ (n <= chain k x)%nat
              /\ forall i, (i < k)%nat -> (chain i x < n)%nat.
Proof.
  induction j as [| j IH]; intros x H.
  - exists 0%nat. split; [lia |]. split; [exact H | intros i Hi; lia].
  - destruct (le_lt_dec n x) as [Hx | Hx].
    + exists 0%nat. split; [lia |]. split; [exact Hx | intros i Hi; lia].
    + rewrite <- chain_shift in H. destruct (IH (next x) H) as [k [Hk [Hn Hlt]]].
      exists (S k). split; [lia |]. split; [rewrite <- chain_shift; exact Hn |].
      intros i Hi. destruct i as [| i]; [exact Hx |].
      rewrite <- chain_shift. apply Hlt. lia.
Qed.

Lemma hit_or_not (m x : nat) :
  (exists j, (j <= m)%nat /\ (n <= chain j x)%nat)
  \/ (forall j, (j <= m)%nat -> (chain j x < n)%nat).
Proof.
  induction m as [| m [[j [Hj H]] | IH]].
  - destruct (le_lt_dec n x) as [Hx | Hx].
    + left. exists 0%nat. split; [lia | exact Hx].
    + right. intros j Hj. replace j with 0%nat by lia. exact Hx.
  - left. exists j. split; [lia | exact H].
  - destruct (le_lt_dec n (chain (S m) x)) as [Hx | Hx].
    + left. exists (S m). split; [lia | exact Hx].
    + right. intros j Hj. destruct (Nat.eq_dec j (S m)) as [-> | Hne];
        [exact Hx | apply IH; lia].
Qed.

(** The chain of the start leaves the indices of the nodes within [n]
    steps: it cannot repeat an index, and there are only [n] of them. *)
Lemma start_chain_ends :
  exists k, (k <= n)%nat /\ (n <= chain k 0)%nat
            /\ forall i, (i < k)%nat -> (chain i 0 < n)%nat.
Proof.
  destruct (hit_or_not n 0) as [[j [Hj H]] | Hall].
  - destruct (first_hit j 0 H) as [k [Hk Hrest]]. exists k. split; [lia | exact Hrest].
  - exfalso.
    assert (Hnd : NoDup (map (fun j => chain j 0) (seq 0 (S n)))).
    { apply NoDup_map_NoDup_ForallPairs; [| apply seq_NoDup].
      intros a b Ha Hb E. apply in_seq in Ha. apply in_seq in Hb.
      destruct (Nat.lt_trichotomy a b) as [Hlt | [Heq | Hgt]]; [| exact Heq |].
      - exfalso. apply (chain_distinct a b Hlt); [intros j Hj; apply Hall; lia | exact E].
      - exfalso. apply (chain_distinct b a Hgt); [intros j Hj; apply Hall; lia |].
        symmetry. exact E. }
    assert (Hincl : incl (map (fun j => chain j 0) (seq 0 (S n))) (seq 0 n)).
    { intros v Hv. apply in_map_iff in Hv. destruct Hv as [j [<- Hj]].
      apply in_seq in Hj. apply in_seq. pose proof (Hall j). lia. }
    pose proof (NoDup_incl_length Hnd Hincl) as Hlen.
    rewrite length_map, !length_seq in Hlen. lia.
Qed.

(** An index that is its own successor is not on the chain of the start. *)
Lemma self_loop_off_chain (i : nat) :
  (0 < i < n)%nat -> next i = i ->
  forall k, (forall j, (j < k)%nat -> (chain j 0 < n)%nat) -> chain k 0 <> i.
Proof.
  intros Hi Hself k. induction k as [| k IH]; intros Hk E.
  - cbn in E. lia.
  - apply IH; [intros j Hj; apply Hk; lia |].
    rewrite Nat.iter_succ in E.
    assert (E' : next (chain k 0) = next i) by congruence.
    apply next_injective in E'; [exact E' | apply Hk; lia | lia].
Qed.

(** An index whose chain leaves the nodes is on the chain of the start. *)
Lemma active_on_chain (i m k : nat) :
  (i < n)%nat ->
  (n <= chain m i)%nat -> (forall j, (j < m)%nat -> (chain j i < n)%nat) ->
  (n <= chain k 0)%nat -> (forall j, (j < k)%nat -> (chain j 0 < n)%nat) ->
  (m <= k)%nat /\ i = chain (k - m) 0.
Proof.
  intros Hi Hm Hmlt Hk Hklt.
  assert (Em : chain m i = n).
  { destruct m as [| m]; [cbn in Hm; lia |].
    rewrite Nat.iter_succ in *.
    pose proof (next_range _ (Hmlt m (Nat.lt_succ_diag_r m))). lia. }
  assert (Ek : chain k 0 = n \/ (k = 0 /\ n = 0)%nat).
  { destruct k as [| k]; [cbn in Hk; right; lia |]. left.
    rewrite Nat.iter_succ in *.
    pose proof (next_range _ (Hklt k (Nat.lt_succ_diag_r k))). lia. }
  destruct Ek as [Ek | [_ Hn]]; [| lia].
  destruct (le_lt_dec m k) as [Hle | Hgt].
  - split; [exact Hle |]. apply chain_back; [exact Hle | exact Hmlt | exact Hklt | congruence].
  - exfalso.
    assert (E : 0%nat = chain (m - k) i).
    { apply chain_back; [lia | exact Hklt | exact Hmlt | congruence]. }
    apply (chain_not_start (m - k) i); [lia | intros j Hj; apply Hmlt; lia |].
    symmetry. exact E.
Qed.

End Chains.

(** *** What an accepted assignment gives *)

Lemma all_different_NoDup (l : list nat) : all_different l = true -> NoDup l.
Proof.
  induction l as [| x r IH]; intros H; [constructor |].
  cbn in H. apply andb_prop in H. destruct H as [Hx Hr].
  constructor; [| apply IH; exact Hr].
  intros Hin. apply negb_true_iff in Hx.
  assert (E : existsb (Nat.eqb x) r = true).
  { apply existsb_exists. exists x. split; [exact Hin | apply Nat.eqb_refl]. }
  congruence.
Qed.

Lemma NoDup_map_injective {A B : Type} (f : A -> B) (l : list A) :
  NoDup (map f l) ->
  forall x y, In x l -> In y l -> f x = f y -> x = y.
Proof.
  induction l as [| a l IH]; intros H x y Hx Hy E; [destruct Hx |].
  cbn in H. apply NoDup_cons_iff in H. destruct H as [Ha Hl].
  destruct Hx as [<- | Hx], Hy as [<- | Hy].
  - reflexivity.
  - exfalso. apply Ha. rewrite E. apply in_map. exact Hy.
  - exfalso. apply Ha. rewrite <- E. apply in_map. exact Hx.
  - apply IH; assumption.
Qed.

Lemma Size_single (n : nat) :
  Size (mkManager n Config.NUM_VEHICLES Config.DEPOT_INDEX) = n.
Proof. unfold Size, Config.NUM_VEHICLES. cbn [num_nodes num_vehicles]. lia. Qed.

Lemma reaches_end_chain (m : Manager) (next : nat -> nat) (fuel : nat) :
  forall i, reaches_end m next fuel i = true ->
            exists k, Size m <= Nat.iter k next i.
Proof.
  induction fuel as [| fuel IH]; intros i H; cbn [reaches_end] in H;
    apply orb_prop in H; destruct H as [H | H].
  - exists 0. apply Nat.leb_le. exact H.
  - discriminate H.
  - exists 0. apply Nat.leb_le. exact H.
  - destruct (IH _ H) as [k Hk]. exists (S k). rewrite Nat.iter_succ_r. exact Hk.
Qed.

Lemma assignment_ok_facts (n : nat) (sol : Assignment) :
  assignment_ok (mkManager n Config.NUM_VEHICLES Config.DEPOT_INDEX) sol = true ->
  (forall i, i < n -> 1 <= NextVar sol i <= n)
  /\ (forall i j, i < n -> j < n -> NextVar sol i = NextVar sol j -> i = j)
  /\ (forall i, i < n -> NextVar sol i = i
                         \/ exists k, n <= Nat.iter k (NextVar sol) i).
Proof.
  unfold assignment_ok. rewrite Size_single.
  intros H. apply andb_prop in H. destruct H as [H H3].
  apply andb_prop in H. destruct H as [H1 H2].
  rewrite forallb_forall in H1, H3.
  split; [| split].
  - intros i Hi. specialize (H1 i (proj2 (in_seq n 0 i) (conj (Nat.le_0_l i) Hi))).
    apply andb_prop in H1. destruct H1 as [Hlt Hs].
    apply Nat.ltb_lt in Hlt. apply negb_true_iff in Hs.
    unfold IsStart in Hs. rewrite Size_single in Hs.
    cbn [depot num_nodes num_vehicles] in *. unfold Config.NUM_VEHICLES, Config.DEPOT_INDEX in *.
    destruct (Nat.eq_dec (NextVar sol i) 0) as [E | E]; [| lia].
    rewrite E in Hs. cbn [Nat.eqb orb] in Hs. rewrite andb_true_r in Hs.
    apply Nat.ltb_ge in Hs. lia.
  - intros i j Hi Hj. apply (NoDup_map_injective _ (seq 0 n)).
    + apply all_different_NoDup. exact H2.
    + apply in_seq. lia.
    + apply in_seq. lia.
  - intros i Hi. specialize (H3 i (proj2 (in_seq n 0 i) (conj (Nat.le_0_l i) Hi))).
    apply orb_prop in H3. destruct H3 as [E | E].
    + left. apply Nat.eqb_eq. exact E.
    + right. destruct (reaches_end_chain _ _ _ _ E) as [k Hk].
      rewrite Size_single in Hk. exists k. exact Hk.
Qed.

(** *** The walk along a route *)

Lemma square_getitem2 (n : nat) (m : Matrix) (a b : nat) :
  square n m = true -> a < n -> b < n -> exists v, getitem2 m a b = Ok v.
Proof.
  unfold square. intros H Ha Hb. apply andb_prop in H. destruct H as [Hlen Hrows].
  apply Nat.eqb_eq in Hlen. rewrite forallb_forall in Hrows.
  unfold getitem2, getitem.
  destruct (nth_error m a) as [row |] eqn:Ea; [| apply nth_error_None in Ea; lia].
  cbn [bind]. specialize (Hrows row (nth_error_In _ _ Ea)). apply Nat.eqb_eq in Hrows.
  destruct (nth_error row b) as [v |] eqn:Eb; [| apply nth_error_None in Eb; lia].
  exists v. reflexivity.
Qed.

Lemma IndexToNode_node (n index : nat) :
  index < n -> IndexToNode (mkManager n Config.NUM_VEHICLES Config.DEPOT_INDEX) index = index.
Proof.
  intros H. unfold IndexToNode. cbn [num_nodes].
  apply Nat.ltb_lt in H. rewrite H. reflexivity.
Qed.

Lemma IndexToNode_end (n index : nat) :
  n <= index -> IndexToNode (mkManager n Config.NUM_VEHICLES Config.DEPOT_INDEX) index = 0.
Proof.
  intros H. unfold IndexToNode. cbn [num_nodes depot].
  apply Nat.ltb_ge in H. rewrite H. reflexivity.
Qed.

Lemma IndexToNode_lt (n index : nat) :
  0 < n -> IndexToNode (mkManager n Config.NUM_VEHICLES Config.DEPOT_INDEX) index < n.
Proof.
  intros H. destruct (le_lt_dec n index) as [Hi | Hi].
  - rewrite IndexToNode_end by exact Hi. exact H.
  - rewrite IndexToNode_node by exact Hi. exact Hi.
Qed.

Section Walk.
Context {C : Type}.
Variable self : RouteOptimizer C.
Variable sol : Assignment.
Let n : nat := List.length (df self).
Let mgr : Manager := mkManager n Config.NUM_VEHICLES Config.DEPOT_INDEX.
Hypothesis dist_square : square n (dist_matrix self) = true.
Hypothesis time_square : square n (time_matrix self) = true.

Local Abbreviation chain k x := (Nat.iter k (NextVar sol) x).

Lemma route_loop_runs (k : nat) :
  forall (index fuel : nat) (route_sequence : list nat) (d t : float),
    (forall j, j < k -> chain j index < n) ->
    n <= chain k index ->
    k <= fuel ->
    exists d' t',
      route_loop self mgr sol fuel index route_sequence d t
      = Some (Ok (chain k index,
                  route_sequence ++ map (fun j => chain j index) (seq 0 k),
                  d', t')).
Proof.
  induction k as [| k IH]; intros index fuel route_sequence d t Hlt Hend Hfuel.
  - cbn in Hend. exists d, t.
    assert (E : IsEnd mgr index = true).
    { unfold IsEnd. unfold mgr. rewrite Size_single. apply Nat.leb_le. exact Hend. }
    cbn [seq map]. rewrite app_nil_r.
    destruct fuel; cbn [route_loop]; rewrite E; reflexivity.
  - pose proof (Hlt 0 (Nat.lt_0_succ k)) as H0. cbn in H0.
    assert (E : IsEnd mgr index = false).
    { unfold IsEnd. unfold mgr. rewrite Size_single. apply Nat.leb_gt. exact H0. }
    destruct fuel as [| fuel]; [lia |].
    cbn [route_loop]. rewrite E.
    assert (Hn : 0 < n) by lia.
    destruct (square_getitem2 n (dist_matrix self) (IndexToNode mgr index)
                              (IndexToNode mgr (NextVar sol index)) dist_square)
      as [dv ->]; [apply IndexToNode_lt; exact Hn | apply IndexToNode_lt; exact Hn |].
    destruct (square_getitem2 n (time_matrix self) (IndexToNode mgr index)
                              (IndexToNode mgr (NextVar sol index)) time_square)
      as [tv ->]; [apply IndexToNode_lt; exact Hn | apply IndexToNode_lt; exact Hn |].
    destruct (IH (NextVar sol index) fuel
                 (route_sequence ++ [IndexToNode mgr index]) (fadd d dv) (fadd t tv))
      as [d' [t' ->]].
    + intros j Hj. rewrite <- Nat.iter_succ_r. apply Hlt. lia.
    + rewrite <- Nat.iter_succ_r. exact Hend.
    + lia.
    + exists d', t'. rewrite (Nat.iter_succ_r k).
      unfold mgr at 1. rewrite (IndexToNode_node n index H0).
      rewrite <- app_assoc. cbn [app seq map].
      change (Nat.iter 0 (NextVar sol) index) with index.
      rewrite <- seq_shift, map_map.
      assert (EL : map (fun j => chain j (NextVar sol index)) (seq 0 k)
                   = map (fun j => chain (S j) index) (seq 0 k)).
      { apply map_ext. intros j. symmetry. apply Nat.iter_succ_r. }
      rewrite EL. reflexivity.
Qed.

End Walk.

(** *** The partition *)

Lemma dropped_nodes_In (n : nat) (sol : Assignment) (node : nat) :
  0 < node < n ->
  (In node (dropped_nodes_of (mkManager n Config.NUM_VEHICLES Config.DEPOT_INDEX) sol)
   <-> NextVar sol node = node).
Proof.
  intros Hnode. unfold dropped_nodes_of. rewrite filter_In, in_seq, Size_single.
  unfold IsStart, IsEnd. rewrite Size_single.
  cbn [depot num_nodes]. unfold Config.DEPOT_INDEX.
  destruct (Nat.ltb_spec node n); [| lia].
  destruct (Nat.eqb_spec node 0); [lia |].
  destruct (Nat.leb_spec n node); [lia |].
  cbn [orb andb negb].
  destruct (Nat.eqb_spec (NextVar sol node) node) as [E | E]; split.
  - intros _. exact E.
  - intros _. split; [lia | reflexivity].
  - intros [_ F]. discriminate F.
  - intros F. contradiction.
Qed.

(** C1: when the solver returns an assignment, [print_solution] reports one
    route and the list of dropped nodes, and every node other than the depot
    occurs exactly once in the two together: once in the route and not among
    the dropped nodes, or once among the dropped nodes and not in the
    route. *)
Theorem routes_and_dropped_partition {C : Type} (self : RouteOptimizer C)
        (SolveWithParameters : RoutingModel -> SearchParameters -> option Assignment)
        (sol : Assignment) (fuel : nat) :
  let n := List.length (df self) in
  let solved := solve SolveWithParameters self in
  solution solved = Some sol ->
  assignment_ok (mkManager n Config.NUM_VEHICLES Config.DEPOT_INDEX) sol = true ->
  square n (dist_matrix self) = true ->
  square n (time_matrix self) = true ->
  n <= fuel ->
  exists (dropped : list nat) (route : Route),
    print_solution fuel solved = Some (Ok (Some (dropped, [route])))
    /\ forall node : nat,
        0 < node < n ->
        count_occ Nat.eq_dec (sequence route) node
        + count_occ Nat.eq_dec dropped node = 1.
Proof.
  intros n solved Hsol Hok Hd Ht Hfuel.
  destruct (assignment_ok_facts n sol Hok) as [Hr [Hi Hp]].
  destruct (start_chain_ends n (NextVar sol) Hr Hi) as [k [Hk [Hend Hlt]]].
  destruct (route_loop_runs solved sol Hd Ht k 0 fuel [] (of_int 0) (of_int 0)
                            Hlt Hend (Nat.le_trans _ _ _ Hk Hfuel))
    as [d' [t' Hrun]].
  set (mgr := mkManager n Config.NUM_VEHICLES Config.DEPOT_INDEX) in *.
  set (visited := map (fun j => Nat.iter j (NextVar sol) 0) (seq 0 k)) in *.
  exists (dropped_nodes_of mgr sol),
         (mkRoute 0 (visited ++ [IndexToNode mgr (Nat.iter k (NextVar sol) 0)]) d' t').
  split.
  - assert (Hman : manager solved = Some mgr) by reflexivity.
    assert (Hrou : routing solved = Some (snd (build_model self))) by reflexivity.
    unfold print_solution. rewrite Hsol, Hrou, Hman.
    change (seq 0 Config.NUM_VEHICLES) with [0]. cbn [vehicles_loop].
    change (Start mgr 0) with 0.
    change (List.length (df solved)) with n in Hrun. fold mgr in Hrun.
    rewrite Hrun. reflexivity.
  - intros node Hnode. cbn [sequence].
    rewrite count_occ_app.
    assert (Elast : count_occ Nat.eq_dec [IndexToNode mgr (Nat.iter k (NextVar sol) 0)] node = 0).
    { unfold mgr. rewrite IndexToNode_end by exact Hend.
      cbn [count_occ]. destruct (Nat.eq_dec 0 node); [lia | reflexivity]. }
    rewrite Elast, Nat.add_0_r.
    assert (Hnd : NoDup visited).
    { apply NoDup_map_NoDup_ForallPairs; [| apply seq_NoDup].
      intros a b Ha Hb E. apply in_seq in Ha. apply in_seq in Hb.
      destruct (Nat.lt_trichotomy a b) as [Hab | [Hab | Hab]]; [| exact Hab |]; exfalso.
      - apply (chain_distinct n (NextVar sol) Hr Hi a b Hab);
          [intros j Hj; apply Hlt; lia | exact E].
      - apply (chain_distinct n (NextVar sol) Hr Hi b a Hab);
          [intros j Hj; apply Hlt; lia | symmetry; exact E]. }
    assert (Hdd : NoDup (dropped_nodes_of mgr sol)).
    { apply NoDup_filter, seq_NoDup. }
    pose proof (dropped_nodes_In n sol node Hnode) as Hdrop. fold mgr in Hdrop.
    destruct (Nat.eq_dec (NextVar sol node) node) as [Eself | Eact].
    + assert (Hout : ~ In node visited).
      { intros Hin. apply in_map_iff in Hin. destruct Hin as [j [Ej Hj]].
        apply in_seq in Hj.
        apply (self_loop_off_chain n (NextVar sol) Hi node Hnode Eself j);
          [intros i Hij; apply Hlt; lia | exact Ej]. }
      apply (count_occ_not_In Nat.eq_dec) in Hout. rewrite Hout.
      apply (proj1 (NoDup_count_occ' Nat.eq_dec _) Hdd). apply Hdrop. exact Eself.
    + assert (Hnot : ~ In node (dropped_nodes_of mgr sol)) by tauto.
      apply (count_occ_not_In Nat.eq_dec) in Hnot. rewrite Hnot, Nat.add_0_r.
      apply (proj1 (NoDup_count_occ' Nat.eq_dec _) Hnd).
      destruct (Hp node (proj2 Hnode)) as [E | [j Hj]]; [contradiction |].
      destruct (first_hit n (NextVar sol) j node Hj) as [m [_ [Hm Hmlt]]].
      destruct (active_on_chain n (NextVar sol) Hr Hi node m k (proj2 Hnode)
                                Hm Hmlt Hend Hlt) as [Hmk Enode].
      assert (0 < m).
      { destruct m as [| m]; [cbn in Hm; lia | lia]. }
      apply in_map_iff. exists (k - m). split; [symmetry; exact Enode |].
      apply in_seq. lia.
Qed.

Lemma routes_and_dropped_partition_witness :
  exists (dropped : list nat) (route : Route),
    print_solution 4 Samples.solved4 = Some (Ok (Some (dropped, [route])))
    /\ forall node : nat,
        0 < node < 4 ->
        count_occ Nat.eq_dec (sequence route) node
        + count_occ Nat.eq_dec dropped node = 1.
Proof.
  refine (routes_and_dropped_partition
            (Samples.optimizer_of Samples.table4
                                  (Samples.uniform 4 (of_int 10))
                                  (Samples.uniform 4 (of_int 10)))
            (Samples.answer Samples.assignment4) Samples.assignment4 4
            eq_refl _ eq_refl eq_refl _).
  - vm_compute. reflexivity.
  - cbn. lia.
Defined.

(** The sample run: stop 1 is dropped, the route is depot, 2, 3, depot. *)
Example print_solution_sample :
  print_solution 4 Samples.solved4
  = Some (Ok (Some ([1], [mkRoute 0 [0; 2; 3; 0] (Fin 30) (Fin 30)]))).
Proof. vm_compute. reflexivity. Qed.

(** An assignment with a cycle is not one the library returns. *)
Example cycle_not_accepted :
  assignment_ok (mkManager 4 Config.NUM_VEHICLES Config.DEPOT_INDEX)
                (mkAssignment Samples.cycle4 0) = false.
Proof. vm_compute. reflexivity. Qed.

End Partition.

(** * Further properties *)

(** ** The re-optimization check and the simulation of main.py *)

Module MainExtras.
Import Py Main MainFlow Optimizer Measures.
Local Open Scope Q_scope.

Lemma Qle_bool_proper (a b t : Q) : a == b -> Qle_bool a t = Qle_bool b t.
Proof.
  intros E. apply Bool.eq_iff_eq_true. rewrite !Qle_bool_iff, E. reflexivity.
Qed.

Lemma check_finite (o p : Q) :
  ~ p == 0 ->
  check_reoptimization (Fin o) (Fin p)
  = Ok (negb (Qle_bool (Qabs (o - p) / p) Config.REOPTIMIZATION_VARIANCE_THRESHOLD)).
Proof.
  intros Hp. unfold check_reoptimization, fdiv. cbn [feq_zero].
  destruct (Qeq_bool p 0) eqn:E; [apply Qeq_bool_iff in E; contradiction |].
  reflexivity.
Qed.

Lemma quotient_nonpositive (v p : Q) : 0 <= v -> p < 0 -> v / p <= 0.
Proof.
  destruct v as [vn vd], p as [pn pd]. unfold Qle, Qlt, Qdiv, Qmult, Qinv. cbn.
  intros Hv Hp. destruct pn as [| pn | pn]; cbn in *; try lia.
Qed.

Lemma check_nonpositive (o p : Q) :
  p <= 0 -> check_reoptimization (Fin o) (Fin p) = Ok false.
Proof.
  intros Hp. destruct (Qeq_dec p 0) as [E | E].
  - unfold check_reoptimization. cbn [feq_zero].
    apply Qeq_bool_iff in E. rewrite E. reflexivity.
  - rewrite (check_finite o p E).
    assert (L : Qle_bool (Qabs (o - p) / p) Config.REOPTIMIZATION_VARIANCE_THRESHOLD = true).
    { apply Qle_bool_iff. apply Qle_trans with 0; [| discriminate].
      apply quotient_nonpositive; [apply Qabs_nonneg |].
      apply Qle_lt_or_eq in Hp. destruct Hp as [Hp | Hp]; [exact Hp | contradiction]. }
    rewrite L. reflexivity.
Qed.

(** X1: a prediction that is zero or negative never asks for a
    re-optimization, whatever the observed time, be it finite, infinite or
    not a number. *)
Theorem nonpositive_prediction_never_triggers (o : float) (p : Q) :
  p <= 0 -> check_reoptimization o (Fin p) = Ok false.
Proof.
  intros Hp. destruct o as [o | | |].
  - apply check_nonpositive. exact Hp.
  - unfold check_reoptimization, fdiv. cbn [feq_zero].
    destruct (Qeq_bool p 0) eqn:E; [reflexivity |].
    destruct p as [[| pn | pn] pd]; [discriminate E | | reflexivity].
    unfold Qle in Hp. cbn in Hp. lia.
  - unfold check_reoptimization, fdiv. cbn [feq_zero].
    destruct (Qeq_bool p 0) eqn:E; [reflexivity |].
    destruct p as [[| pn | pn] pd]; [discriminate E | | reflexivity].
    unfold Qle in Hp. cbn in Hp. lia.
  - unfold check_reoptimization, fdiv. cbn [feq_zero].
    destruct (Qeq_bool p 0); reflexivity.
Qed.

Lemma nonpositive_prediction_never_triggers_witness :
  -100 <= 0 /\ check_reoptimization PInf (Fin (-100)) = Ok false.
Proof.
  assert (H : -100 <= 0) by discriminate.
  split; [exact H | exact (nonpositive_prediction_never_triggers PInf (-100) H)].
Defined.

(** X2: the check looks at the size of the deviation only: arriving [d]
    late and arriving [d] early give the same answer. *)
Theorem early_and_late_alike (p d : Q) :
  check_reoptimization (Fin (p + d)) (Fin p) = check_reoptimization (Fin (p - d)) (Fin p).
Proof.
  destruct (Qeq_dec p 0) as [E | E].
  - unfold check_reoptimization. cbn [feq_zero].
    apply Qeq_bool_iff in E. rewrite E. reflexivity.
  - rewrite !check_finite by exact E. do 2 f_equal.
    apply Qle_bool_proper.
    assert (E1 : p + d - p == d) by ring.
    assert (E2 : p - d - p == - d) by ring.
    rewrite E1, E2, Qabs_opp. reflexivity.
Qed.

Lemma trigger_of_first_route (route : Route) (rest : list Route) :
  dynamic_trigger (route :: rest)
  = Ok [false; finite (time route) && fgt (time route) (Fin 0)].
Proof.
  unfold dynamic_trigger. destruct (time route) as [q | | |]; try reflexivity.
  cbn [fmul finite fgt andb].
  destruct (Qlt_le_dec 0 q) as [Hq | Hq].
  - assert (Hne : ~ q == 0) by (intros E; rewrite E in Hq; discriminate Hq).
    rewrite !check_finite by exact Hne. cbn [bind].
    assert (Hminor : Qabs (q * (110 # 100) - q) / q == 1 # 10).
    { assert (E : q * (110 # 100) - q == q * (1 # 10)) by ring.
      rewrite E, Qabs_pos by (apply Qmult_le_0_compat; [apply Qlt_le_weak; exact Hq | discriminate]).
      field. exact Hne. }
    assert (Hmajor : Qabs (q * (120 # 100) - q) / q == 2 # 10).
    { assert (E : q * (120 # 100) - q == q * (2 # 10)) by ring.
      rewrite E, Qabs_pos by (apply Qmult_le_0_compat; [apply Qlt_le_weak; exact Hq | discriminate]).
      field. exact Hne. }
    rewrite (Qle_bool_proper _ _ _ Hminor), (Qle_bool_proper _ _ _ Hmajor).
    assert (Hpos : Qle_bool q 0 = false).
    { destruct (Qle_bool q 0) eqn:L; [| reflexivity].
      apply Qle_bool_iff in L. exfalso. exact (Qlt_not_le _ _ Hq L). }
    rewrite Hpos. reflexivity.
  - rewrite !check_nonpositive by exact Hq. cbn [bind].
    apply Qle_bool_iff in Hq. rewrite Hq. reflexivity.
Qed.


End MainExtras.

(** ** The callbacks and the matrices of the routing service *)

Module CallbackExtras.
Import Py Data Routing Optimizer DataUtils Measures.
Local Open Scope nat_scope.





(** *** The loop over the cells of the response *)

Lemma mapM_length {A B : Type} (f : A -> result B) (l : list A) (ys : list B) :
  mapM f l = Ok ys -> List.length ys = List.length l.
Proof.
  intros H. apply DataUtilsProps.mapM_Forall2 in H.
  symmetry. exact (Forall2_length H).
Qed.

Lemma mapM_raises {A B : Type} (f : A -> result B) (e : exn) (l : list A) :
  (forall x e', In x l -> f x = Raise e' -> e' = e) ->
  (exists x e', In x l /\ f x = Raise e') ->
  mapM f l = Raise e.
Proof.
  induction l as [| a l IH]; intros Hall [x [e' [Hin Hx]]]; [destruct Hin |].
  cbn [mapM]. destruct (f a) as [b |] eqn:Ea.
  - cbn [bind]. rewrite IH; [reflexivity | |].
    + intros y e'' Hy. apply Hall. right. exact Hy.
    + destruct Hin as [<- | Hin]; [congruence |].
      exists x, e'. split; assumption.
  - cbn [bind]. f_equal. apply (Hall a); [left; reflexivity | exact Ea].
Qed.

Lemma mapM_error_source {A B : Type} (f : A -> result B) (e : exn) (l : list A) :
  mapM f l = Raise e -> exists x, In x l /\ f x = Raise e.
Proof.
  induction l as [| a l IH]; intros H; cbn [mapM] in H; [discriminate H |].
  destruct (f a) as [b |] eqn:Ea.
  - cbn [bind] in H. destruct (mapM f l) as [bs |] eqn:El; [discriminate H |].
    cbn [bind] in H. destruct (IH H) as [x [Hx Hf]].
    exists x. split; [right; exact Hx | exact Hf].
  - cbn [bind] in H. exists a. split; [left; reflexivity | congruence].
Qed.

Lemma Forall2_In_r {A B : Type} (P : A -> B -> Prop) (l : list A) (ys : list B) :
  Forall2 P l ys -> forall y, In y ys -> exists x, In x l /\ P x y.
Proof.
  induction 1 as [| a b l ys Hab _ IH]; intros y Hy; [destruct Hy |].
  destruct Hy as [<- | Hy].
  - exists a. split; [left; reflexivity | exact Hab].
  - destruct (IH y Hy) as [x [Hx Hp]]. exists x. split; [right; exact Hx | exact Hp].
Qed.

Lemma square_of_cells {X : Type} (g : X -> float) (size : nat) (cells : list (list X)) :
  List.length cells = size ->
  (forall row, In row cells -> List.length row = size) ->
  square size (map (map g) cells) = true.
Proof.
  intros Hlen Hrows. unfold square. rewrite length_map, Hlen, Nat.eqb_refl.
  cbn [andb]. apply forallb_forall. intros r Hr.
  apply in_map_iff in Hr. destruct Hr as [row [<- Hrow]].
  rewrite length_map, (Hrows row Hrow). apply Nat.eqb_refl.
Qed.

Lemma getitem2_of_cells {X Y : Type} (g : X -> Y) (cells : list (list X))
      (i j : nat) (row : list X) (c : X) :
  nth_error cells i = Some row -> nth_error row j = Some c ->
  getitem2 (map (map g) cells) i j = Ok (g c).
Proof.
  intros Hrow Hc. unfold getitem2, getitem.
  rewrite (map_nth_error (map g) _ _ Hrow). cbn [bind].
  rewrite (map_nth_error g _ _ Hc). reflexivity.
Qed.

(** X6: the loop over the response succeeds exactly when the response has
    at least [size * size] cells, and it then yields two square matrices of
    dimension [size]; on a shorter response it raises [IndexError] (which
    [get_tomtom_matrix] catches to fall back on the geodesic matrices). *)
Theorem api_matrices_shape (size : nat) (data_matrix : list Cell) :
  ((size * size <= List.length data_matrix)%nat ->
   exists dist time,
     api_matrices size data_matrix = Ok (dist, time)
     /\ square size dist = true /\ square size time = true)
  /\ ((List.length data_matrix < size * size)%nat ->
      api_matrices size data_matrix = Raise IndexError).
Proof.
  pose (g := fun i j : nat =>
               cell <- getitem data_matrix (i * size + j) ;; Ok (cell_entry cell)).
  assert (Eapi : api_matrices size data_matrix
                 = (cells <- mapM (fun i => mapM (fun j => g i j) (seq 0 size))
                                  (seq 0 size) ;;
                    Ok (map (map fst) cells, map (map snd) cells)))
    by reflexivity.
  rewrite Eapi. clear Eapi.
  assert (Hraise : forall i j e, g i j = Raise e -> e = IndexError).
  { intros i j e. unfold g, getitem.
    destruct (nth_error data_matrix (i * size + j)); cbn [bind]; congruence. }
  split; intros Hlen.
  - destruct (DataUtilsProps.mapM_total (fun i => mapM (fun j => g i j) (seq 0 size))
                                        (seq 0 size)) as [cells Hcells].
    { intros i Hi. apply DataUtilsProps.mapM_total. intros j Hj.
      apply in_seq in Hi. apply in_seq in Hj. unfold g, getitem.
      destruct (nth_error data_matrix (i * size + j)) as [cell |] eqn:E.
      - eexists; reflexivity.
      - apply nth_error_None in E. nia. }
    rewrite Hcells. cbn [bind]. eexists. eexists. split; [reflexivity |].
    assert (Hc : List.length cells = size).
    { rewrite (mapM_length _ _ _ Hcells). apply length_seq. }
    assert (Hr : forall row, In row cells -> List.length row = size).
    { intros row Hrow.
      destruct (Forall2_In_r _ _ _ (DataUtilsProps.mapM_Forall2 _ _ _ Hcells) row Hrow)
        as [i [_ Hi]].
      rewrite (mapM_length _ _ _ Hi). apply length_seq. }
    split; apply square_of_cells; assumption.
  - assert (Hs : (0 < size)%nat) by nia.
    assert (Hlast : g (size - 1) (size - 1) = Raise IndexError).
    { unfold g, getitem.
      destruct (nth_error data_matrix ((size - 1) * size + (size - 1))) as [cell |] eqn:E;
        [| reflexivity].
      assert (Hn : nth_error data_matrix ((size - 1) * size + (size - 1)) <> None)
        by congruence.
      apply nth_error_Some in Hn. nia. }
    assert (Hin : In (size - 1) (seq 0 size)) by (apply in_seq; lia).
    rewrite (mapM_raises (fun i => mapM (fun j => g i j) (seq 0 size)) IndexError);
      [reflexivity | |].
    + intros i e _ He. apply mapM_error_source in He.
      destruct He as [j [_ Hj]]. exact (Hraise i j e Hj).
    + exists (size - 1), IndexError. split; [exact Hin |].
      apply mapM_raises.
      * intros j e _ Hj. exact (Hraise (size - 1) j e Hj).
      * exists (size - 1), IndexError. split; [exact Hin | exact Hlast].
Qed.

Lemma api_matrices_shape_witness :
  (2 * 2 <= List.length Samples.response2)%nat
  /\ exists dist time,
      api_matrices 2 Samples.response2 = Ok (dist, time)
      /\ square 2 dist = true /\ square 2 time = true.
Proof.
  assert (H : (2 * 2 <= List.length Samples.response2)%nat) by (cbn; lia).
  split; [exact H | exact (proj1 (api_matrices_shape 2 Samples.response2) H)].
Defined.

(** X7: on the matrices read from a response for the locations of the
    node table, the callbacks at a pair of nodes depend on the cell of that
    pair only: with a [routeSummary] of length [len] and travel time [t] the
    transit time is [t] and the arc cost is [(2*t + len)] divided by 2 and
    truncated toward zero; without one both callbacks raise
    [OverflowError]. *)
Theorem callbacks_on_service_cells {C : Type} (df_data : DataFrame C)
        (data_matrix : list Cell) (dist time : Matrix) (i j : nat) :
  let size := List.length df_data in
  api_matrices size data_matrix = Ok (dist, time) ->
  i < size -> j < size ->
  let self := mkRouteOptimizer df_data dist time None None None in
  let mgr := fst (build_model self) in
  exists cell : Cell,
    nth_error data_matrix (i * size + j) = Some cell
    /\ match cell with
       | Some (len, t) =>
           time_callback self mgr i j = Ok t
           /\ cost_callback self mgr i j = Ok ((2 * t + len) ÷ 2)%Z
       | None =>
           time_callback self mgr i j = Raise OverflowError
           /\ cost_callback self mgr i j = Raise OverflowError
       end.
Proof.
  intros size Hapi Hi Hj self mgr.
  pose (g := fun i j : nat =>
               cell <- getitem data_matrix (i * size + j) ;; Ok (cell_entry cell)).
  assert (Eapi : api_matrices size data_matrix
                 = (cells <- mapM (fun i => mapM (fun j => g i j) (seq 0 size))
                                  (seq 0 size) ;;
                    Ok (map (map fst) cells, map (map snd) cells)))
    by reflexivity.
  rewrite Eapi in Hapi. clear Eapi.
  destruct (mapM (fun i => mapM (fun j => g i j) (seq 0 size)) (seq 0 size))
    as [cells |] eqn:Hcells; [| discriminate Hapi].
  cbn [bind] in Hapi. injection Hapi as <- <-.
  destruct (DataUtilsProps.filled_cell g size cells i j Hcells Hi Hj)
    as [row [c [Hrow [Hc Hg]]]].
  unfold g, getitem in Hg.
  destruct (nth_error data_matrix (i * size + j)) as [cell |]; [| discriminate Hg].
  cbn [bind] in Hg. injection Hg as <-.
  exists cell. split; [reflexivity |].
  assert (Ei : IndexToNode mgr i = i).
  { unfold mgr, self, IndexToNode, build_model. cbn [fst num_nodes df].
    apply Nat.ltb_lt in Hi. fold size. rewrite Hi. reflexivity. }
  assert (Ej : IndexToNode mgr j = j).
  { unfold mgr, self, IndexToNode, build_model. cbn [fst num_nodes df].
    apply Nat.ltb_lt in Hj. fold size. rewrite Hj. reflexivity. }
  unfold time_callback, cost_callback. rewrite Ei, Ej.
  cbn [time_matrix dist_matrix self].
  rewrite (getitem2_of_cells snd cells i j row _ Hrow Hc).
  rewrite (getitem2_of_cells fst cells i j row _ Hrow Hc).
  destruct cell as [[len t] |]; cbn [cell_entry fst snd bind].
  - split.
    + unfold of_int. cbn [to_int]. rewrite Truncation.Qtruncate_inject. reflexivity.
    + unfold of_int, Config.WEIGHT_TIME, Config.WEIGHT_FUEL.
      cbn [fmul fadd to_int]. unfold Qtruncate, Qplus, Qmult, inject_Z.
      cbn [Qnum Qden]. apply f_equal. apply f_equal2; [lia | reflexivity].
  - split; reflexivity.
Qed.

Lemma callbacks_on_service_cells_witness :
  let self := mkRouteOptimizer Samples.table2
                               [[of_int 0; PInf]; [of_int 1200; of_int 0]]
                               [[of_int 0; PInf]; [of_int 300; of_int 0]]
                               None None None in
  let mgr := fst (build_model self) in
  exists cell : Cell,
    nth_error Samples.response2 (1 * 2 + 0) = Some cell
    /\ match cell with
       | Some (len, t) =>
           time_callback self mgr 1 0 = Ok t
           /\ cost_callback self mgr 1 0 = Ok ((2 * t + len) ÷ 2)%Z
       | None =>
           time_callback self mgr 1 0 = Raise OverflowError
           /\ cost_callback self mgr 1 0 = Raise OverflowError
       end.
Proof.
  refine (callbacks_on_service_cells Samples.table2 Samples.response2 _ _ 1 0
                                     eq_refl _ _); cbn; lia.
Defined.

(** *** Truncation keeps the order *)

Lemma Qtruncate_monotone (a b : Q) : (a <= b)%Q -> (Qtruncate a <= Qtruncate b)%Z.
Proof.
  intros Hab.
  destruct (Qlt_le_dec a 0) as [Ha | Ha].
  - rewrite (Truncation.Qtruncate_ceiling a (Qlt_le_weak _ _ Ha)).
    destruct (Qlt_le_dec 0 b) as [Hb | Hb].
    + rewrite (Truncation.Qtruncate_floor b (Qlt_le_weak _ _ Hb)).
      apply Z.le_trans with 0%Z.
      * change 0%Z with (Qceiling 0). apply Qceiling_resp_le. apply Qlt_le_weak. exact Ha.
      * change 0%Z with (Qfloor 0). apply Qfloor_resp_le. apply Qlt_le_weak. exact Hb.
    + rewrite (Truncation.Qtruncate_ceiling b Hb). apply Qceiling_resp_le. exact Hab.
  - rewrite (Truncation.Qtruncate_floor a Ha).
    rewrite (Truncation.Qtruncate_floor b (Qle_trans _ _ _ Ha Hab)).
    apply Qfloor_resp_le. exact Hab.
Qed.



End CallbackExtras.

(** ** What the dimensions and the windows admit *)

Module DimensionExtras.
Import Py Data Routing Optimizer DataUtils Measures.
Local Open Scope nat_scope.

Lemma firstn_snoc {A : Type} (l : list A) :
  forall (k : nat) (x : A),
    nth_error l k = Some x -> firstn (S k) l = firstn k l ++ [x].
Proof.
  induction l as [| a l IH]; intros k x H; [destruct k; discriminate H |].
  destruct k as [| k]; cbn in H.
  - injection H as <-. reflexivity.
  - cbn [firstn app]. f_equal. apply IH. exact H.
Qed.

Lemma mapM_snoc {A B : Type} (f : A -> result B) (l : list A) (x : A)
      (ys : list B) (y : B) :
  mapM f l = Ok ys -> f x = Ok y -> mapM f (l ++ [x]) = Ok (ys ++ [y]).
Proof.
  revert ys. induction l as [| a l IH]; intros ys Hl Hx; cbn [mapM app] in *.
  - injection Hl as <-. rewrite Hx. reflexivity.
  - destruct (f a) as [b |]; [| discriminate Hl]. cbn [bind] in *.
    destruct (mapM f l) as [bs |]; [| discriminate Hl]. cbn [bind] in Hl.
    injection Hl as <-. rewrite (IH bs eq_refl Hx). reflexivity.
Qed.

Lemma total_snoc (l : list Z) (z : Z) : total (l ++ [z]) = (total l + z)%Z.
Proof.
  unfold total. induction l as [| a l IH]; cbn [fold_right app]; lia.
Qed.

(** X8: on a route that the capacity dimension admits, the load when the
    vehicle reaches a position is the sum of the demands of the nodes before
    it, and that sum lies between 0 and the vehicle capacity of 40. *)
Theorem capacity_never_exceeded {C : Type} (self : RouteOptimizer C) (vehicle : nat)
        (cumul : nat -> Z) (path : list nat) (k index : nat) :
  let mgr := fst (build_model self) in
  dimension_admits (capacity_dimension self mgr) vehicle cumul path = true ->
  nth_error path k = Some index ->
  exists loads : list Z,
    mapM (demand_callback self mgr) (firstn k path) = Ok loads
    /\ cumul index = total loads
    /\ (0 <= total loads <= Config.VEHICLE_CAPACITY)%Z.
Proof.
  intros mgr H.
  unfold dimension_admits in H.
  cbn [capacity_dimension vehicle_capacities fix_start_cumul_to_zero] in H.
  unfold Config.NUM_VEHICLES in H. cbn [repeat] in H.
  destruct vehicle as [| v]; [| destruct v; discriminate H].
  cbn [nth_error] in H.
  destruct path as [| start rest]; [discriminate H |].
  apply andb_prop in H. destruct H as [H0 Hsteps].
  apply Z.eqb_eq in H0.
  pose proof (OptimizerProps.steps_admit_cumul _ _ _ _ Hsteps) as Hc.
  pose proof (OptimizerProps.steps_admit_slack _ _ _ _ Hsteps) as Hs.
  revert index. induction k as [| k IH]; intros index Hk.
  - cbn in Hk. injection Hk as <-. exists []. split; [reflexivity |].
    split; [exact H0 |]. unfold total, Config.VEHICLE_CAPACITY. cbn. lia.
  - destruct (nth_error (start :: rest) k) as [prev |] eqn:Hprev.
    + destruct (IH prev eq_refl) as [loads [Hl [Hcum _]]].
      destruct (Hs k prev index Hprev Hk) as [t [Ht Hslack]].
      cbn [capacity_dimension transit slack_max] in Ht, Hslack.
      exists (loads ++ [t]).
      rewrite (firstn_snoc _ _ _ Hprev), total_snoc.
      split; [apply mapM_snoc; assumption |].
      assert (E : cumul index = (total loads + t)%Z) by lia.
      split; [exact E |].
      rewrite <- E. apply Hc. apply (nth_error_In _ _ Hk).
    + apply nth_error_None in Hprev.
      assert (Hlt : S k < List.length (start :: rest)).
      { apply nth_error_Some. congruence. }
      lia.
Qed.

Lemma capacity_never_exceeded_witness :
  let self := Samples.optimizer_of Samples.table4 [] [] in
  let mgr := fst (build_model self) in
  let cumul := fun index : nat =>
                 match index with
                 | 0 => 0%Z | 2 => 0%Z | 3 => 3%Z | _ => 4%Z
                 end in
  exists loads : list Z,
    mapM (demand_callback self mgr) (firstn 3 [0; 2; 3; 4]) = Ok loads
    /\ cumul 4 = total loads
    /\ (0 <= total loads <= Config.VEHICLE_CAPACITY)%Z.
Proof.
  intros self mgr cumul.
  exact (capacity_never_exceeded self 0 cumul [0; 2; 3; 4] 3 4 eq_refl eq_refl).
Defined.

(** *** The windows *)

Lemma iterrows_In {C : Type} (rows : list (Row C)) :
  forall (s k : nat) (row : Row C),
    nth_error rows k = Some row ->
    In (s + k, row) (combine (seq s (List.length rows)) rows).
Proof.
  induction rows as [| r rows IH]; intros s k row H; [destruct k; discriminate H |].
  cbn [List.length seq combine]. destruct k as [| k]; cbn in H.
  - injection H as <-. left. f_equal. lia.
  - right. replace (s + S k) with (S s + k) by lia. apply IH. exact H.
Qed.

(** X9: on a route that satisfies the ranges put on the cumulative times,
    every stop - every index of the route other than the depot's - is
    reached within the window of its parity: between 1800 and 14400 seconds
    when its index is even, between 3600 and 21600 seconds when it is odd. *)
Theorem stops_reached_within_windows {C : Type} (self : RouteOptimizer C)
        (cumul : nat -> Z) (path : list nat) (i : nat) :
  let model := snd (build_model self) in
  ranges_admit model "Time" cumul path = true ->
  In i path ->
  0 < i < List.length (df self) ->
  (i mod 2 = 0 -> (1800 <= cumul i <= 14400)%Z)
  /\ (i mod 2 <> 0 -> (3600 <= cumul i <= 21600)%Z).
Proof.
  intros model H Hin [Hpos Hlt].
  unfold ranges_admit in H. rewrite forallb_forall in H.
  destruct (nth_error (df self) i) as [row |] eqn:Hrow;
    [| apply nth_error_None in Hrow; lia].
  assert (Hr : In ("Time"%string, i, time_window_of i) (cumul_ranges model)).
  { unfold model. cbn [build_model snd cumul_ranges]. unfold time_windows, iterrows.
    apply in_flat_map. exists (i, row). split.
    - exact (iterrows_In (df self) 0 i row Hrow).
    - destruct (Nat.eqb_spec i 0) as [E | _]; [lia |]. left. reflexivity. }
  specialize (H _ Hr). cbn beta iota in H.
  destruct (time_window_of i) as [lo hi] eqn:Ew.
  rewrite String.eqb_refl in H. cbn [negb orb] in H.
  assert (Hex : existsb (Nat.eqb i) path = true).
  { apply existsb_exists. exists i. split; [exact Hin | apply Nat.eqb_refl]. }
  rewrite Hex in H. cbn [negb orb] in H.
  apply OptimizerProps.cumul_in_bounds in H.
  unfold time_window_of in Ew.
  destruct (Nat.eqb_spec (i mod 2) 0) as [E | E]; injection Ew as <- <-;
    split; intros E'; try contradiction; exact H.
Qed.

Lemma stops_reached_within_windows_witness :
  let self := Samples.optimizer_of Samples.table2
                                   (Samples.uniform 2 (of_int 10))
                                   (Samples.uniform 2 (of_int 10)) in
  (3600 <= Samples.late_start 1 <= 21600)%Z.
Proof.
  intros self.
  refine (proj2 (stops_reached_within_windows self Samples.late_start [0; 1; 2] 1
                                              eq_refl _ _) _).
  - cbn. tauto.
  - cbn. lia.
  - cbn. discriminate.
Defined.

End DimensionExtras.

(** ** What print_solution reports and what visualize_route draws *)

Module ReportExtras.
Import Py Data Routing Optimizer DataUtils Measures MainFlow.
Local Open Scope nat_scope.

(** *** The dropped nodes *)

Lemma seq_increasing (len : nat) : forall start, StronglySorted lt (seq start len).
Proof.
  induction len as [| len IH]; intros start; cbn [seq]; constructor.
  - apply IH.
  - apply Forall_forall. intros x Hx. apply in_seq in Hx. lia.
Qed.

Lemma filter_increasing (f : nat -> bool) (l : list nat) :
  StronglySorted lt l -> StronglySorted lt (filter f l).
Proof.
  induction 1 as [| a l Hl IH Ha]; cbn [filter]; [constructor |].
  destruct (f a); [| exact IH].
  constructor; [exact IH |].
  apply Forall_forall. intros x Hx. apply filter_In in Hx.
  rewrite Forall_forall in Ha. apply Ha. tauto.
Qed.

(** X10: for every manager and every assignment, the dropped nodes are
    listed in strictly increasing order (so none is listed twice); none of
    them is a start or an end of a route, and each is its own successor. *)
Theorem dropped_nodes_increasing (mgr : Manager) (sol : Assignment) :
  StronglySorted lt (dropped_nodes_of mgr sol)
  /\ forall node, In node (dropped_nodes_of mgr sol) ->
                  IsStart mgr node = false /\ IsEnd mgr node = false
                  /\ NextVar sol node = node.
Proof.
  unfold dropped_nodes_of. split.
  - apply filter_increasing, seq_increasing.
  - intros node H. apply filter_In in H. destruct H as [_ H].
    apply andb_prop in H. destruct H as [H1 H2].
    apply negb_true_iff, orb_false_elim in H1.
    apply Nat.eqb_eq in H2. tauto.
Qed.

Lemma dropped_nodes_increasing_witness :
  In 1 (dropped_nodes_of (mkManager 4 Config.NUM_VEHICLES Config.DEPOT_INDEX)
                         Samples.assignment4)
  /\ NextVar Samples.assignment4 1 = 1.
Proof.
  assert (H : In 1 (dropped_nodes_of (mkManager 4 Config.NUM_VEHICLES Config.DEPOT_INDEX)
                                     Samples.assignment4)) by (left; reflexivity).
  split; [exact H |].
  exact (proj2 (proj2 (proj2 (dropped_nodes_increasing
                                (mkManager 4 Config.NUM_VEHICLES Config.DEPOT_INDEX)
                                Samples.assignment4) 1 H))).
Defined.

(** *** Totals of a route *)

Section Totals.
Context {C : Type}.
Variable self : RouteOptimizer C.
Variable mgr : Manager.
Variable sol : Assignment.

Lemma route_loop_sound (fuel : nat) :
  forall (index : nat) (route_sequence : list nat) (d t : float)
         (e : nat) (s : list nat) (d' t' : float),
    route_loop self mgr sol fuel index route_sequence d t = Some (Ok (e, s, d', t')) ->
    exists visited : list nat,
      s = route_sequence ++ visited
      /\ hd_error (visited ++ [IndexToNode mgr e]) = Some (IndexToNode mgr index)
      /\ arcs_total (dist_matrix self) (visited ++ [IndexToNode mgr e]) d = Ok d'
      /\ arcs_total (time_matrix self) (visited ++ [IndexToNode mgr e]) t = Ok t'.
Proof.
  assert (Hbase : forall index route_sequence d t e s d' t',
             Some (Ok (index, route_sequence, d, t))
             = Some (Ok (e, s, d', t')) :> option (result (nat * list nat * float * float)) ->
             exists visited : list nat,
               s = route_sequence ++ visited
               /\ hd_error (visited ++ [IndexToNode mgr e]) = Some (IndexToNode mgr index)
               /\ arcs_total (dist_matrix self) (visited ++ [IndexToNode mgr e]) d = Ok d'
               /\ arcs_total (time_matrix self) (visited ++ [IndexToNode mgr e]) t = Ok t').
  { intros index route_sequence d t e s d' t' H. injection H as <- <- <- <-.
    exists []. rewrite app_nil_r. repeat split. }
  induction fuel as [| fuel IH]; intros index route_sequence d t e s d' t' H;
    cbn [route_loop] in H; destruct (IsEnd mgr index).
  - exact (Hbase _ _ _ _ _ _ _ _ H).
  - discriminate H.
  - exact (Hbase _ _ _ _ _ _ _ _ H).
  - destruct (getitem2 (dist_matrix self) (IndexToNode mgr index)
                       (IndexToNode mgr (NextVar sol index))) as [dv |] eqn:Ed;
      [| discriminate H].
    destruct (getitem2 (time_matrix self) (IndexToNode mgr index)
                       (IndexToNode mgr (NextVar sol index))) as [tv |] eqn:Et;
      [| discriminate H].
    destruct (IH _ _ _ _ _ _ _ _ H) as [visited [Es [Hhd [Hd Ht]]]].
    exists (IndexToNode mgr index :: visited).
    split; [rewrite Es, <- app_assoc; reflexivity |].
    split; [reflexivity |].
    rewrite <- !app_comm_cons.
    destruct (visited ++ [IndexToNode mgr e]) as [| b rest] eqn:Ev; [discriminate Hhd |].
    cbn in Hhd. injection Hhd as ->.
    cbn [app arcs_total]. rewrite Ed, Et. cbn [bind]. split; assumption.
Qed.

Lemma vehicles_loop_sound (P : Route -> Prop) (fuel : nat) :
  (forall vehicle_id e s d' t',
      route_loop self mgr sol fuel (Start mgr vehicle_id) [] (of_int 0) (of_int 0)
      = Some (Ok (e, s, d', t')) ->
      P (mkRoute vehicle_id (s ++ [IndexToNode mgr e]) d' t')) ->
  forall (vehicles : list nat) (acc routes : list Route),
    vehicles_loop self mgr sol fuel vehicles acc = Some (Ok routes) ->
    Forall P acc -> Forall P routes.
Proof.
  intros Hroute. induction vehicles as [| v vehicles IH]; intros acc routes H Hacc;
    cbn [vehicles_loop] in H.
  - injection H as <-. exact Hacc.
  - destruct (route_loop self mgr sol fuel (Start mgr v) [] (of_int 0) (of_int 0))
      as [[[[[e s] d'] t'] | err] |] eqn:Er; try discriminate H.
    apply (IH _ _ H). apply Forall_app. split; [exact Hacc |].
    constructor; [| constructor]. apply Hroute. exact Er.
Qed.

End Totals.

Lemma reported_routes_satisfy {C : Type} (self : RouteOptimizer C) (fuel : nat)
      (dropped : list nat) (routes : list Route) (P : Route -> Prop) :
  (forall mgr sol vehicle_id e s d' t',
      route_loop self mgr sol fuel (Start mgr vehicle_id) [] (of_int 0) (of_int 0)
      = Some (Ok (e, s, d', t')) ->
      P (mkRoute vehicle_id (s ++ [IndexToNode mgr e]) d' t')) ->
  print_solution fuel self = Some (Ok (Some (dropped, routes))) ->
  Forall P routes.
Proof.
  intros HP H. unfold print_solution in H.
  destruct (solution self) as [sol |]; [| discriminate H].
  destruct (routing self) as [model |]; [| discriminate H].
  destruct (manager self) as [mgr |]; [| discriminate H].
  destruct (vehicles_loop self mgr sol fuel (seq 0 Config.NUM_VEHICLES) [])
    as [[rs | err] |] eqn:Ev; try discriminate H.
  injection H as _ <-.
  apply (vehicles_loop_sound self mgr sol P fuel (HP mgr sol)
                             (seq 0 Config.NUM_VEHICLES) [] rs Ev).
  constructor.
Qed.

(** X11: whatever [print_solution] reports, the distance and the time of
    each reported route are the sums of the entries of the distance and of
    the time matrix over the consecutive nodes of the route's sequence. *)
Theorem route_totals_follow_sequence {C : Type} (self : RouteOptimizer C) (fuel : nat)
        (dropped : list nat) (routes : list Route) (route : Route) :
  print_solution fuel self = Some (Ok (Some (dropped, routes))) ->
  In route routes ->
  arcs_total (dist_matrix self) (sequence route) (of_int 0) = Ok (distance route)
  /\ arcs_total (time_matrix self) (sequence route) (of_int 0) = Ok (time route).
Proof.
  intros H Hin.
  pose proof (reported_routes_satisfy self fuel dropped routes
                (fun r => arcs_total (dist_matrix self) (sequence r) (of_int 0)
                          = Ok (distance r)
                          /\ arcs_total (time_matrix self) (sequence r) (of_int 0)
                             = Ok (time r))) as HF.
  rewrite Forall_forall in HF. apply HF; [| exact H | exact Hin].
  intros mgr sol v e s d' t' Hr. cbn [sequence distance time].
  destruct (route_loop_sound self mgr sol fuel _ _ _ _ _ _ _ _ Hr)
    as [visited [Es [_ [Hd Ht]]]].
  cbn [app] in Es. subst s. split; assumption.
Qed.

Lemma route_totals_follow_sequence_witness :
  let route := mkRoute 0 [0; 2; 3; 0] (Fin 30) (Fin 30) in
  arcs_total (dist_matrix Samples.solved4) (sequence route) (of_int 0)
  = Ok (distance route)
  /\ arcs_total (time_matrix Samples.solved4) (sequence route) (of_int 0)
     = Ok (time route).
Proof.
  intros route.
  refine (route_totals_follow_sequence Samples.solved4 4 [1] [route] route _ _).
  - vm_compute. reflexivity.
  - left. reflexivity.
Defined.

Lemma getitem2_In {A : Type} (m : list (list A)) (a b : nat) (v : A) :
  getitem2 m a b = Ok v -> exists row, In row m /\ In v row.
Proof.
  unfold getitem2, getitem. intros H.
  destruct (nth_error m a) as [row |] eqn:Ea; [| discriminate H]. cbn [bind] in H.
  destruct (nth_error row b) as [x |] eqn:Eb; [| discriminate H].
  injection H as <-. exists row.
  split; [exact (nth_error_In _ _ Ea) | exact (nth_error_In _ _ Eb)].
Qed.

Lemma arcs_total_finite_nonneg (m : Matrix) (path : list nat) :
  all_entries finite_nonneg m = true ->
  forall acc r : float,
    finite_nonneg acc = true -> arcs_total m path acc = Ok r ->
    finite_nonneg r = true.
Proof.
  intros Hm. induction path as [| a rest IH]; intros acc r Hacc H.
  - cbn in H. injection H as <-. exact Hacc.
  - destruct rest as [| b rest'].
    + cbn in H. injection H as <-. exact Hacc.
    + cbn [arcs_total] in H.
      destruct (getitem2 m a b) as [v |] eqn:Ev; [| discriminate H].
      cbn [bind] in H. apply (IH (fadd acc v) r); [| exact H].
      destruct (getitem2_In m a b v Ev) as [row [Hrow Hv]].
      unfold all_entries in Hm. rewrite forallb_forall in Hm.
      specialize (Hm row Hrow). rewrite forallb_forall in Hm. specialize (Hm v Hv).
      destruct acc as [qa | | |], v as [qv | | |]; try discriminate.
      cbn [fadd finite_nonneg] in *.
      apply Qle_bool_iff in Hacc. apply Qle_bool_iff in Hm. apply Qle_bool_iff.
      replace 0%Q with (0 + 0)%Q by reflexivity. apply Qplus_le_compat; assumption.
Qed.



(** *** The reported route *)

Lemma report {C : Type} (self : RouteOptimizer C)
      (SolveWithParameters : RoutingModel -> SearchParameters -> option Assignment)
      (sol : Assignment) (fuel : nat) :
  let n := List.length (df self) in
  let mgr := mkManager n Config.NUM_VEHICLES Config.DEPOT_INDEX in
  let solved := solve SolveWithParameters self in
  solution solved = Some sol ->
  assignment_ok mgr sol = true ->
  square n (dist_matrix self) = true ->
  square n (time_matrix self) = true ->
  n <= fuel ->
  0 < n ->
  exists (stops : list nat) (d' t' : float),
    print_solution fuel solved
    = Some (Ok (Some (dropped_nodes_of mgr sol,
                      [mkRoute 0 (Config.DEPOT_INDEX :: stops ++ [Config.DEPOT_INDEX])
                               d' t'])))
    /\ NoDup stops
    /\ forall x, In x stops -> 0 < x < n.
Proof.
  intros n mgr solved Hsol Hok Hd Ht Hfuel Hn.
  destruct (Partition.assignment_ok_facts n sol Hok) as [Hr [Hi _]].
  destruct (Partition.start_chain_ends n (NextVar sol) Hr Hi) as [k [Hk [Hend Hlt]]].
  destruct (Partition.route_loop_runs solved sol Hd Ht k 0 fuel [] (of_int 0) (of_int 0)
                                      Hlt Hend (Nat.le_trans _ _ _ Hk Hfuel))
    as [d' [t' Hrun]].
  destruct k as [| k]; [cbn in Hend; lia |].
  exists (map (fun j => Nat.iter j (NextVar sol) 0) (seq 1 k)), d', t'.
  split; [| split].
  - assert (Hman : manager solved = Some mgr) by reflexivity.
    assert (Hrou : routing solved = Some (snd (build_model self))) by reflexivity.
    unfold print_solution. rewrite Hsol, Hrou, Hman.
    change (seq 0 Config.NUM_VEHICLES) with [0]. cbn [vehicles_loop].
    change (Start mgr 0) with 0.
    change (List.length (df solved)) with n in Hrun. fold mgr in Hrun.
    rewrite Hrun.
    assert (Elast : IndexToNode mgr (Nat.iter (S k) (NextVar sol) 0) = Config.DEPOT_INDEX).
    { unfold mgr. apply Partition.IndexToNode_end. exact Hend. }
    rewrite Elast. reflexivity.
  - apply NoDup_map_NoDup_ForallPairs; [| apply seq_NoDup].
    intros a b Ha Hb E. apply in_seq in Ha. apply in_seq in Hb.
    destruct (Nat.lt_trichotomy a b) as [Hab | [Hab | Hab]]; [| exact Hab |]; exfalso.
    + apply (Partition.chain_distinct n (NextVar sol) Hr Hi a b Hab);
        [intros j Hj; apply Hlt; lia | exact E].
    + apply (Partition.chain_distinct n (NextVar sol) Hr Hi b a Hab);
        [intros j Hj; apply Hlt; lia | symmetry; exact E].
  - intros x Hx. apply in_map_iff in Hx. destruct Hx as [j [<- Hj]].
    apply in_seq in Hj. split; [| apply Hlt; lia].
    assert (Hnz : Nat.iter j (NextVar sol) 0 <> 0).
    { apply (Partition.chain_not_start n (NextVar sol) Hr); [lia |].
      intros i Hij. apply Hlt. lia. }
    lia.
Qed.

(** X12: when the solver returns an assignment for a table with a depot,
    the reported route is that of vehicle 0 and its sequence is the depot,
    then stops that are pairwise different and are not the depot, then the
    depot again; no dropped node is the depot. *)
Theorem reported_route_shape {C : Type} (self : RouteOptimizer C)
        (SolveWithParameters : RoutingModel -> SearchParameters -> option Assignment)
        (sol : Assignment) (fuel : nat) :
  let n := List.length (df self) in
  let solved := solve SolveWithParameters self in
  solution solved = Some sol ->
  assignment_ok (mkManager n Config.NUM_VEHICLES Config.DEPOT_INDEX) sol = true ->
  square n (dist_matrix self) = true ->
  square n (time_matrix self) = true ->
  n <= fuel ->
  0 < n ->
  exists (dropped : list nat) (route : Route) (stops : list nat),
    print_solution fuel solved = Some (Ok (Some (dropped, [route])))
    /\ vehicle route = 0
    /\ sequence route = Config.DEPOT_INDEX :: stops ++ [Config.DEPOT_INDEX]
    /\ NoDup stops
    /\ (forall x, In x stops -> 0 < x < n)
    /\ (forall x, In x dropped -> 0 < x < n).
Proof.
  intros n solved Hsol Hok Hd Ht Hfuel Hn.
  destruct (report self SolveWithParameters sol fuel Hsol Hok Hd Ht Hfuel Hn)
    as [stops [d' [t' [Hp [Hnd Hst]]]]].
  eexists. eexists. exists stops.
  split; [exact Hp |]. repeat split; try assumption; try (apply Hst; assumption).
  - unfold dropped_nodes_of in H. apply filter_In in H. destruct H as [Hin Hf].
    apply in_seq in Hin. apply andb_prop in Hf. destruct Hf as [Hf _].
    apply negb_true_iff, orb_false_elim in Hf. destruct Hf as [Hs _].
    unfold IsStart in Hs. rewrite Partition.Size_single in *.
    cbn [depot num_nodes] in Hs. unfold Config.DEPOT_INDEX in Hs.
    destruct (Nat.eq_dec x 0) as [-> | Hx]; [| lia].
    apply Nat.ltb_lt in Hn. fold n in Hs. rewrite Hn in Hs. discriminate Hs.
  - unfold dropped_nodes_of in H. apply filter_In in H. destruct H as [Hin _].
    apply in_seq in Hin. rewrite Partition.Size_single in Hin. fold n in Hin. lia.
Qed.

Lemma reported_route_shape_witness :
  exists (dropped : list nat) (route : Route) (stops : list nat),
    print_solution 4 Samples.solved4 = Some (Ok (Some (dropped, [route])))
    /\ vehicle route = 0
    /\ sequence route = Config.DEPOT_INDEX :: stops ++ [Config.DEPOT_INDEX]
    /\ NoDup stops
    /\ (forall x, In x stops -> 0 < x < 4)
    /\ (forall x, In x dropped -> 0 < x < 4).
Proof.
  refine (reported_route_shape
            (Samples.optimizer_of Samples.table4
                                  (Samples.uniform 4 (of_int 10))
                                  (Samples.uniform 4 (of_int 10)))
            (Samples.answer Samples.assignment4) Samples.assignment4 4
            eq_refl _ eq_refl eq_refl _ _).
  - vm_compute. reflexivity.
  - cbn. lia.
  - cbn. lia.
Defined.

(** *** The drawing *)

Lemma route_coords_inside {C : Type} (df_data : DataFrame C) (l : list nat) :
  (forall x, In x l -> x < List.length df_data) ->
  exists cs, route_coords df_data l = Ok cs /\ List.length cs = List.length l.
Proof.
  intros H. unfold route_coords.
  destruct (DataUtilsProps.mapM_total
              (fun idx => row <- getitem df_data idx ;; Ok (lat row, lon row)) l)
    as [cs Hcs].
  - intros x Hx. unfold getitem.
    destruct (nth_error df_data x) as [row |] eqn:E; [eexists; reflexivity |].
    apply nth_error_None in E. specialize (H x Hx). lia.
  - exists cs. split; [exact Hcs | exact (CallbackExtras.mapM_length _ _ _ Hcs)].
Qed.

Lemma drawing_of_stops {C : Type} (df_data : DataFrame C) (depot : Row C)
      (stops : list nat) (d t : float) :
  nth_error df_data Config.DEPOT_INDEX = Some depot ->
  (forall x, In x stops -> x < List.length df_data) ->
  exists between : list (C * C),
    visualize_route df_data
                    [mkRoute 0 (Config.DEPOT_INDEX :: stops ++ [Config.DEPOT_INDEX]) d t]
    = Ok (Some (mkMap (lat depot, lon depot)
                      (map plot_point (iterrows df_data))
                      [mkPolyLine ((lat depot, lon depot)
                                     :: between ++ [(lat depot, lon depot)])
                                  "blue"]))
    /\ List.length between = List.length stops.
Proof.
  intros Hdepot Hst.
  destruct (route_coords_inside df_data stops Hst) as [between [Hb Hlen]].
  exists between. split; [| exact Hlen].
  unfold visualize_route, getitem. rewrite Hdepot. cbn [bind mapM].
  unfold plot_route. cbn [sequence vehicle].
  unfold route_coords in *. cbn [mapM]. unfold getitem at 1.
  rewrite Hdepot. cbn [bind].
  rewrite (DimensionExtras.mapM_snoc _ stops Config.DEPOT_INDEX between
                                     (lat depot, lon depot) Hb).
  - reflexivity.
  - unfold getitem. rewrite Hdepot. reflexivity.
Qed.

Lemma depot_row {C : Type} (df_data : DataFrame C) :
  0 < List.length df_data -> exists depot, nth_error df_data Config.DEPOT_INDEX = Some depot.
Proof.
  intros H. destruct (nth_error df_data Config.DEPOT_INDEX) as [depot |] eqn:E.
  - exists depot. reflexivity.
  - apply nth_error_None in E. unfold Config.DEPOT_INDEX in E. lia.
Qed.

(** X13: the route that [print_solution] reports for a returned assignment
    is drawn by [visualize_route] without an error: the map is centred on
    the depot, has one marker for each row of the table and one blue line,
    and the line has a point for each node of the sequence, the first and
    the last being the depot. *)
Theorem reported_route_is_drawn {C : Type} (self : RouteOptimizer C)
        (SolveWithParameters : RoutingModel -> SearchParameters -> option Assignment)
        (sol : Assignment) (fuel : nat) :
  let n := List.length (df self) in
  let solved := solve SolveWithParameters self in
  solution solved = Some sol ->
  assignment_ok (mkManager n Config.NUM_VEHICLES Config.DEPOT_INDEX) sol = true ->
  square n (dist_matrix self) = true ->
  square n (time_matrix self) = true ->
  n <= fuel ->
  0 < n ->
  exists (dropped : list nat) (route : Route) (depot : Row C) (between : list (C * C)),
    print_solution fuel solved = Some (Ok (Some (dropped, [route])))
    /\ nth_error (df self) Config.DEPOT_INDEX = Some depot
    /\ visualize_route (df self) [route]
       = Ok (Some (mkMap (lat depot, lon depot)
                         (map plot_point (iterrows (df self)))
                         [mkPolyLine ((lat depot, lon depot)
                                        :: between ++ [(lat depot, lon depot)])
                                     "blue"]))
    /\ S (S (List.length between)) = List.length (sequence route)
    /\ List.length (map plot_point (iterrows (df self))) = n.
Proof.
  intros n solved Hsol Hok Hd Ht Hfuel Hn.
  destruct (report self SolveWithParameters sol fuel Hsol Hok Hd Ht Hfuel Hn)
    as [stops [d' [t' [Hp [_ Hst]]]]].
  destruct (depot_row (df self) Hn) as [depot Hdepot].
  destruct (drawing_of_stops (df self) depot stops d' t' Hdepot) as [between [Hv Hlen]].
  { intros x Hx. apply Hst. exact Hx. }
  eexists. eexists. exists depot, between.
  split; [exact Hp |]. split; [exact Hdepot |]. split; [exact Hv |]. split.
  - cbn [sequence List.length]. rewrite length_app, Hlen. cbn [List.length]. lia.
  - unfold iterrows. rewrite length_map, length_combine, length_seq. fold n. lia.
Qed.

Lemma reported_route_is_drawn_witness :
  exists (dropped : list nat) (route : Route) (depot : Row Q) (between : list (Q * Q)),
    print_solution 4 Samples.solved4 = Some (Ok (Some (dropped, [route])))
    /\ nth_error Samples.table4 Config.DEPOT_INDEX = Some depot
    /\ visualize_route Samples.table4 [route]
       = Ok (Some (mkMap (lat depot, lon depot)
                         (map plot_point (iterrows Samples.table4))
                         [mkPolyLine ((lat depot, lon depot)
                                        :: between ++ [(lat depot, lon depot)])
                                     "blue"]))
    /\ S (S (List.length between)) = List.length (sequence route)
    /\ List.length (map plot_point (iterrows Samples.table4)) = 4.
Proof.
  refine (reported_route_is_drawn
            (Samples.optimizer_of Samples.table4
                                  (Samples.uniform 4 (of_int 10))
                                  (Samples.uniform 4 (of_int 10)))
            (Samples.answer Samples.assignment4) Samples.assignment4 4
            eq_refl _ eq_refl eq_refl _ _).
  - vm_compute. reflexivity.
  - cbn. lia.
  - cbn. lia.
Defined.

(** X14: [visualize_route] draws nothing for an empty list of routes, and
    raises [IndexError] as soon as some route names a row that the table
    does not have (in particular when the table is empty). *)
Theorem visualize_route_outside_table {C : Type} (df_data : DataFrame C)
        (routes : list Route) (route : Route) (idx : nat) :
  visualize_route df_data [] = Ok None
  /\ (In route routes -> In idx (sequence route) -> List.length df_data <= idx ->
      visualize_route df_data routes = Raise IndexError).
Proof.
  split; [reflexivity |]. intros Hroute Hidx Hout.
  destruct routes as [| r routes']; [destruct Hroute |].
  set (routes := r :: routes') in *.
  unfold visualize_route. fold routes. cbv iota.
  change (match routes with [] => Ok None | _ :: _ =>
            depot <- getitem df_data Config.DEPOT_INDEX ;;
            lines <- mapM (plot_route df_data) routes ;;
            Ok (Some (mkMap (lat depot, lon depot)
                            (map plot_point (iterrows df_data)) lines)) end)
    with (depot <- getitem df_data Config.DEPOT_INDEX ;;
          lines <- mapM (plot_route df_data) routes ;;
          Ok (Some (mkMap (lat depot, lon depot)
                          (map plot_point (iterrows df_data)) lines))).
  unfold getitem at 1.
  destruct (nth_error df_data Config.DEPOT_INDEX) as [depot |]; [| reflexivity].
  cbn [bind].
  assert (Hget : forall i e, (row <- getitem df_data i ;; Ok (lat row, lon row))
                             = Raise e -> e = IndexError).
  { intros i e. unfold getitem. destruct (nth_error df_data i); cbn [bind]; congruence. }
  assert (Hplot : forall x e, plot_route df_data x = Raise e -> e = IndexError).
  { intros x e. unfold plot_route.
    destruct (route_coords df_data (sequence x)) as [cs |] eqn:Ec; cbn [bind].
    - unfold getitem.
      destruct (nth_error colors (vehicle x mod List.length colors)); cbn [bind]; congruence.
    - intros E. injection E as <-. unfold route_coords in Ec.
      apply CallbackExtras.mapM_error_source in Ec. destruct Ec as [i [_ Hi]].
      exact (Hget i _ Hi). }
  rewrite (CallbackExtras.mapM_raises (plot_route df_data) IndexError routes);
    [reflexivity | |].
  - intros x e _ Hx. exact (Hplot x e Hx).
  - exists route, IndexError. split; [exact Hroute |].
    unfold plot_route, route_coords.
    rewrite (CallbackExtras.mapM_raises _ IndexError (sequence route));
      [reflexivity | |].
    + intros i e _ Hi. exact (Hget i e Hi).
    + exists idx, IndexError. split; [exact Hidx |].
      unfold getitem. apply nth_error_None in Hout. rewrite Hout. reflexivity.
Qed.

Lemma visualize_route_outside_table_witness :
  visualize_route Samples.table2 [mkRoute 0 [0; 5; 0] (Fin 0) (Fin 0)]
  = Raise IndexError.
Proof.
  apply (proj2 (visualize_route_outside_table
                  Samples.table2 [mkRoute 0 [0; 5; 0] (Fin 0) (Fin 0)]
                  (mkRoute 0 [0; 5; 0] (Fin 0) (Fin 0)) 5)).
  - left. reflexivity.
  - cbn. tauto.
  - cbn. lia.
Defined.

End ReportExtras.

(** ** More on the geodesic fallback *)

Module GeodesicExtras.
Import Py Data DataUtils.
Local Open Scope R_scope.

Lemma haversine_distance_range (lat1 lon1 lat2 lon2 : R) :
  exists d : R,
    haversine_distance lat1 lon1 lat2 lon2 = Ok d /\ 0 <= d <= PI * 6371000.
Proof.
  unfold haversine_distance. cbv zeta.
  pose proof (DataUtilsProps.haversine_argument_bounds
                (radians lat1) (radians lat2) (radians lon2 - radians lon1)) as [Hl Hu].
  set (a := sin ((radians lat2 - radians lat1) / 2) ^ 2
            + cos (radians lat1) * cos (radians lat2)
              * sin ((radians lon2 - radians lon1) / 2) ^ 2) in *.
  assert (Hs0 : 0 <= sqrt a) by apply sqrt_pos.
  assert (Hs1 : sqrt a <= 1).
  { rewrite <- sqrt_1. apply sqrt_le_1_alt. exact Hu. }
  unfold py_sqrt. destruct (Rlt_dec a 0) as [Hneg | _]; [lra |].
  cbn [bind]. unfold py_asin.
  destruct (Rlt_dec (sqrt a) (-1)) as [Hneg | _]; [lra |].
  destruct (Rlt_dec 1 (sqrt a)) as [Hbig | _]; [lra |].
  cbn [bind]. eexists. split; [reflexivity |].
  pose proof (DataUtilsProps.asin_nonneg (sqrt a) (conj Hs0 Hs1)) as H0.
  pose proof (asin_bound (sqrt a)) as [_ H1].
  pose proof PI_RGT_0. nra.
Qed.

(** X15: the distance from a point to itself is 0, and no distance exceeds
    half the circumference of the sphere of radius 6371 km. *)
Theorem haversine_distance_bounded (lat1 lon1 lat2 lon2 : R) :
  haversine_distance lat1 lon1 lat1 lon1 = Ok 0
  /\ exists d : R,
      haversine_distance lat1 lon1 lat2 lon2 = Ok d /\ 0 <= d <= PI * 6371000.
Proof.
  split; [| apply haversine_distance_range].
  unfold haversine_distance. cbv zeta.
  replace ((radians lat1 - radians lat1) / 2) with 0 by lra.
  replace ((radians lon1 - radians lon1) / 2) with 0 by lra.
  rewrite sin_0.
  replace (0 ^ 2 + cos (radians lat1) * cos (radians lat1) * 0 ^ 2) with 0 by ring.
  unfold py_sqrt. destruct (Rlt_dec 0 0) as [H | _]; [lra |].
  cbn [bind]. rewrite sqrt_0. unfold py_asin.
  destruct (Rlt_dec 0 (-1)) as [H | _]; [lra |].
  destruct (Rlt_dec 1 0) as [H | _]; [lra |].
  cbn [bind]. rewrite asin_0. f_equal. ring.
Qed.

(** X16: the distance depends on the longitudes through their difference
    only, and it does not change when a longitude is increased by 360
    degrees. *)
Theorem haversine_distance_longitude (lat1 lon1 lat2 lon2 shift : R) :
  haversine_distance lat1 (lon1 + shift) lat2 (lon2 + shift)
  = haversine_distance lat1 lon1 lat2 lon2
  /\ haversine_distance lat1 (lon1 + 360) lat2 lon2
     = haversine_distance lat1 lon1 lat2 lon2.
Proof.
  unfold haversine_distance. cbv zeta. split.
  - replace (radians (lon2 + shift) - radians (lon1 + shift))
      with (radians lon2 - radians lon1) by (unfold radians; lra).
    reflexivity.
  - set (x := (radians lon2 - radians lon1) / 2).
    replace ((radians lon2 - radians (lon1 + 360)) / 2) with (x - PI)
      by (unfold x, radians; lra).
    assert (E : sin (x - PI) = - sin x).
    { pose proof (neg_sin (x - PI)) as H.
      replace (x - PI + PI) with x in H by lra. lra. }
    rewrite E.
    replace ((- sin x) ^ 2) with (sin x ^ 2) by ring.
    reflexivity.
Qed.

Lemma speed_positive : 0 < speed_mps.
Proof. unfold speed_mps, Config.FALLBACK_SPEED_KMH. lra. Qed.

Lemma fallback_entry_range (coords : list (R * R)) (i j : nat) :
  (i < List.length coords)%nat -> (j < List.length coords)%nat ->
  exists d : R,
    fallback_entry coords i j = Ok (d, d / speed_mps) /\ 0 <= d <= PI * 6371000.
Proof.
  intros Hi Hj. unfold fallback_entry. pose proof PI_RGT_0 as Hpi.
  destruct (Nat.eqb_spec i j) as [_ | _].
  - exists 0. replace (0 / speed_mps) with 0 by (unfold Rdiv; ring).
    split; [reflexivity | lra].
  - unfold getitem.
    destruct (nth_error coords i) as [ci |] eqn:Ei;
      [| apply nth_error_None in Ei; lia].
    destruct (nth_error coords j) as [cj |] eqn:Ej;
      [| apply nth_error_None in Ej; lia].
    cbn [bind].
    destruct (haversine_distance_range (fst ci) (snd ci) (fst cj) (snd cj))
      as [d [-> Hd]].
    exists d. cbn [bind]. split; [reflexivity | exact Hd].
Qed.

(** X17: for every table of locations the fallback succeeds and gives two
    matrices with as many rows and columns as the table has rows (none for
    an empty table); every distance lies between 0 and half the
    circumference, and every time is at least 0. *)
Theorem fallback_matrices_wellformed (df_locations : DataFrame R) :
  let n := List.length df_locations in
  exists dist time : list (list R),
    fallback_matrices df_locations = Ok (dist, time)
    /\ List.length dist = n /\ List.length time = n
    /\ (forall row, In row dist \/ In row time -> List.length row = n)
    /\ forall i j : nat,
        (i < n)%nat -> (j < n)%nat ->
        0 <= entry dist i j <= PI * 6371000 /\ 0 <= entry time i j.
Proof.
  intros n. unfold fallback_matrices. fold n.
  set (coords := map (fun row => (lat row, lon row)) df_locations).
  assert (Hlen : List.length coords = n) by (unfold coords; apply length_map).
  destruct (DataUtilsProps.mapM_total
              (fun i => mapM (fun j => fallback_entry coords i j) (seq 0 n)) (seq 0 n))
    as [cells Hcells].
  { intros i Hi. apply DataUtilsProps.mapM_total. intros j Hj.
    apply in_seq in Hi. apply in_seq in Hj.
    destruct (fallback_entry_range coords i j) as [d [E _]]; [lia | lia |].
    eexists; exact E. }
  rewrite Hcells. cbn [bind].
  eexists. eexists. split; [reflexivity |].
  assert (Hc : List.length cells = n).
  { rewrite (CallbackExtras.mapM_length _ _ _ Hcells). apply length_seq. }
  assert (Hr : forall row, In row cells -> List.length row = n).
  { intros row Hrow.
    destruct (CallbackExtras.Forall2_In_r
                _ _ _ (DataUtilsProps.mapM_Forall2 _ _ _ Hcells) row Hrow)
      as [i [_ Hi]].
    rewrite (CallbackExtras.mapM_length _ _ _ Hi). apply length_seq. }
  split; [rewrite length_map; exact Hc |].
  split; [rewrite length_map; exact Hc |].
  split.
  - intros row [H | H]; apply in_map_iff in H; destruct H as [r [<- Hin]];
      rewrite length_map; apply Hr; exact Hin.
  - intros i j Hi Hj.
    destruct (DataUtilsProps.filled_cell _ n cells i j Hcells Hi Hj)
      as [row [c [Hrow [Hcell Hf]]]].
    destruct (fallback_entry_range coords i j) as [d [E Hd]]; [lia | lia |].
    rewrite E in Hf. injection Hf as <-.
    rewrite !(DataUtilsProps.entry_of_cell _ cells i j row _ Hrow Hcell).
    cbn [fst snd]. split; [exact Hd |].
    pose proof speed_positive as Hs.
    apply Rmult_le_pos; [lra |]. apply Rlt_le, Rinv_0_lt_compat. exact Hs.
Qed.

Lemma fallback_matrices_wellformed_witness :
  exists dist time : list (list R),
    fallback_matrices Samples.locations2 = Ok (dist, time)
    /\ List.length dist = 2%nat
    /\ 0 <= entry dist 0 1 <= PI * 6371000.
Proof.
  destruct (fallback_matrices_wellformed Samples.locations2)
    as [dist [time [E [Hd [_ [_ H]]]]]].
  exists dist, time. split; [exact E |]. split; [exact Hd |].
  assert (H0 : (0 < List.length Samples.locations2)%nat) by (cbn; lia).
  assert (H1 : (1 < List.length Samples.locations2)%nat) by (cbn; lia).
  exact (proj1 (H 0%nat 1%nat H0 H1)).
Defined.

End GeodesicExtras.

(** ** A whole run of main *)

Module MainProgramExtras.
Import Py Data Routing Optimizer MainFlow MainProgram Measures.
Local Open Scope nat_scope.



End MainProgramExtras.

(** ** Loading the node table *)

Module LoadExtras.
Import Py DataUtils.

Lemma filter_none {A : Type} (p : A -> bool) (l : list A) :
  filter (fun x => negb (p x)) l = [] <-> forallb p l = true.
Proof.
  induction l as [| a l IH]; cbn [filter forallb]; [tauto |].
  destruct (p a); cbn [negb andb].
  - exact IH.
  - split; discriminate.
Qed.

(** X21: loading gives back the table that was read, unchanged, exactly
    when reading succeeded and each of the columns id, lat, lon, demand and
    priority is among its columns, in whatever order and with whatever other
    columns; in every other case, a failed read included, it gives [None].
    The list of missing columns is empty exactly in the first case. *)
Theorem load_data_from_csv_result {T : Type} (columns : T -> list string)
        (read_csv : result T) (df : T) :
  (load_data_from_csv columns read_csv = Some df
   <-> read_csv = Ok df
       /\ forall col, In col required_columns -> In col (columns df))
  /\ (read_csv = Ok df ->
      (missing_columns (columns df) = []
       <-> load_data_from_csv columns read_csv = Some df)).
Proof.
  assert (Hall : forall cols,
             forallb (fun col => existsb (String.eqb col) cols) required_columns = true
             <-> forall col, In col required_columns -> In col cols).
  { intros cols. rewrite forallb_forall. split; intros H col Hcol.
    - specialize (H col Hcol). apply existsb_exists in H.
      destruct H as [c [Hc E]]. apply String.eqb_eq in E. subst c. exact Hc.
    - apply existsb_exists. exists col. split; [apply H; exact Hcol | apply String.eqb_refl]. }
  unfold load_data_from_csv. split.
  - destruct read_csv as [df' | e]; cbn [bind].
    + destruct (forallb (fun col => existsb (String.eqb col) (columns df'))
                        required_columns) eqn:E.
      * split.
        -- intros H. injection H as <-. split; [reflexivity | apply Hall; exact E].
        -- intros [H _]. injection H as <-. reflexivity.
      * split; [discriminate |].
        intros [H Hcols]. injection H as <-. apply Hall in Hcols. congruence.
    + split; [discriminate | intros [H _]; discriminate H].
  - intros ->. cbn [bind]. unfold missing_columns. rewrite filter_none.
    destruct (forallb (fun col => existsb (String.eqb col) (columns df))
                      required_columns); split; intros H; try reflexivity;
      discriminate H.
Qed.

Lemma load_data_from_csv_result_witness :
  missing_columns ["priority"; "note"; "lon"; "lat"; "demand"; "id"]%string = []
  <-> load_data_from_csv (fun t : list string => t)
                         (Ok ["priority"; "note"; "lon"; "lat"; "demand"; "id"]%string)
      = Some ["priority"; "note"; "lon"; "lat"; "demand"; "id"]%string.
Proof.
  exact (proj2 (load_data_from_csv_result
                  (fun t : list string => t)
                  (Ok ["priority"; "note"; "lon"; "lat"; "demand"; "id"]%string)
                  ["priority"; "note"; "lon"; "lat"; "demand"; "id"]%string)
               eq_refl).
Defined.

End LoadExtras.
